(** * Approval-gated tool runners: command execution and file writing

    A shallow embedding of
      - [src/extension/src/agent/v1/tools/runners/execute-command.tool.ts]
      - [src/extension/src/agent/v1/tools/runners/write-file.tool.ts]

    JavaScript strings are sequences of UTF-16 code units; a code unit is a
    number.

    The collaborators of the two classes (approval channel, terminal
    manager, diff view provider, formatters) are not part of the two files.
    Every call made to them is recorded in a chronological trace; what they
    answer is read from an environment record; any of their calls may throw,
    as decided by the environment's [faults].  The formatters are kept
    symbolic: a result is the formatter that was called, with its arguments.

    [async] functions are written in a state-and-exception monad.  Once
    the process runs, its events reach the listeners whenever
    [executeShellTerminal] is suspended: on the race, on the grace delay,
    on the [approved] broadcast and on the formatter of the result.  A
    listener makes its own call at once and logs its failure right after
    it.  A run ends when [execute] returns or throws. *)

From Stdlib Require Import List NArith Bool Arith Lia String Ascii.
Import ListNotations.

(** ** JavaScript string primitives *)

Module JS.

Definition jschar := N.
Definition jsstring := list jschar.

(** An ASCII literal as a sequence of code units. *)
Definition js (s : string) : jsstring :=
  List.map N_of_ascii (list_ascii_of_string s).

Arguments js : simpl never.

Definition nl : jschar := 10%N.

(** ECMAScript [WhiteSpace] and [LineTerminator] code points, the
    characters [String.prototype.trim] removes. *)
Definition isWhiteSpace (c : jschar) : bool :=
  ((9 <=? c) && (c <=? 13) || (c =? 32) || (c =? 160) || (c =? 5760)
   || (8192 <=? c) && (c <=? 8202) || (c =? 8232) || (c =? 8233)
   || (c =? 8239) || (c =? 8287) || (c =? 12288) || (c =? 65279))%N.

Fixpoint trimStart (s : jsstring) : jsstring :=
  match s with
  | [] => []
  | c :: s' => if isWhiteSpace c then trimStart s' else s
  end.

Fixpoint trimEnd (s : jsstring) : jsstring :=
  match s with
  | [] => []
  | c :: s' =>
      match trimEnd s' with
      | [] => if isWhiteSpace c then [] else [c]
      | t => c :: t
      end
  end.

Definition trim (s : jsstring) : jsstring := trimEnd (trimStart s).

Definition isEmpty (s : jsstring) : bool :=
  match s with [] => true | _ => false end.

Fixpoint startsWith (p s : jsstring) : bool :=
  match p, s with
  | [], _ => true
  | _ :: _, [] => false
  | a :: p', b :: s' => (a =? b)%N && startsWith p' s'
  end.

Definition endsWith (p s : jsstring) : bool :=
  startsWith (rev p) (rev s).

(** [s.includes(p)] *)
Fixpoint includes (p s : jsstring) : bool :=
  startsWith p s ||
  match s with
  | [] => false
  | _ :: s' => includes p s'
  end.

(** [s.split(sep)] for a one-character separator. *)
Fixpoint split (sep : jschar) (s : jsstring) : list jsstring :=
  match s with
  | [] => [[]]
  | c :: s' =>
      if (c =? sep)%N then [] :: split sep s'
      else match split sep s' with
           | [] => [[c]]
           | l :: ls => (c :: l) :: ls
           end
  end.

(** [parts.join(sep)] *)
Fixpoint join (sep : jsstring) (parts : list jsstring) : jsstring :=
  match parts with
  | [] => []
  | [p] => p
  | p :: ps => p ++ sep ++ join sep ps
  end.

(** [parts.slice(1)] and [parts.slice(0, -1)] *)
Definition sliceFrom1 (parts : list jsstring) : list jsstring := tl parts.
Definition sliceButLast (parts : list jsstring) : list jsstring :=
  removelast parts.

(** [s.replace(/c/g, rep)] for a pattern that is one literal character. *)
Fixpoint replaceAll (c : jschar) (rep : jsstring) (s : jsstring) : jsstring :=
  match s with
  | [] => []
  | x :: s' =>
      (if (x =? c)%N then rep else [x]) ++ replaceAll c rep s'
  end.

(** [a ?? b] *)
Definition orElse {A : Type} (a : option A) (b : A) : A :=
  match a with Some x => x | None => b end.

(** [s || dflt] on strings: the empty string is falsy. *)
Definition orDefault (s dflt : jsstring) : jsstring :=
  if isEmpty s then dflt else s.

End JS.

Import JS.

(** ** [WriteFileTool.preprocessContent] *)

Definition fence : jsstring := js "```".
Definition gt : jschar := 62%N.
Definition lt : jschar := 60%N.
Definition quot : jschar := 34%N.

Definition stripLeadingFence (content : jsstring) : jsstring :=
  if startsWith fence content
  then trim (join [nl] (sliceFrom1 (split nl content)))
  else content.

Definition stripTrailingFence (content : jsstring) : jsstring :=
  if endsWith fence content
  then trim (join [nl] (sliceButLast (split nl content)))
  else content.

Definition preprocessContent (content : jsstring) : jsstring :=
  let content := trim content in
  let content := stripLeadingFence content in
  let content := stripTrailingFence content in
  replaceAll quot [quot] (replaceAll lt [lt] (replaceAll gt [gt] content)).

(** ** Shared vocabulary of the two runners *)

Inductive ApprovalState := pending | loading | approved | rejected | error.

(** [type EarlyExitState = "approved" | "rejected" | "pending"] *)
Inductive EarlyExitState := exitApproved | exitRejected | exitPending.

Inductive AskResponse := yesButtonTapped | noButtonTapped | messageResponse.

Definition responseIs (a b : AskResponse) : bool :=
  match a, b with
  | yesButtonTapped, yesButtonTapped
  | noButtonTapped, noButtonTapped
  | messageResponse, messageResponse => true
  | _, _ => false
  end.

(** What [ask] resolves to: [{ response, text, images }]. *)
Record AskResult := {
  response : AskResponse;
  text : option jsstring;
  images : option (list jsstring)
}.

(** A thrown value: an [Error] instance with its [message], or any other
    value [v], with its [message] property when it has one ([null],
    [undefined] and the primitive values have none). *)
Inductive Exn :=
| ErrorOf (message : jsstring)
| ThrownValue (message : option jsstring) (v : jsstring).

(** [error?.message], whatever was thrown. *)
Definition messageOf (e : Exn) : option jsstring :=
  match e with
  | ErrorOf m => Some m
  | ThrownValue m _ => m
  end.

(** The [tool] object carried by [ask] and [updateAsk]. *)
Inductive ChatTool :=
| ExecuteCommandMsg (command : jsstring) (output : option jsstring)
    (state : ApprovalState) (earlyExit : option EarlyExitState)
    (userFeedback : option jsstring) (ts : N) (isSubMsg : option bool)
| WriteToFileMsg (content path : jsstring) (state : ApprovalState)
    (userFeedback : option jsstring) (ts : N).

Definition approvalStateOf (t : ChatTool) : ApprovalState :=
  match t with
  | ExecuteCommandMsg _ _ s _ _ _ _ => s
  | WriteToFileMsg _ _ s _ _ => s
  end.

Definition contentOf (t : ChatTool) : option jsstring :=
  match t with
  | ExecuteCommandMsg _ _ _ _ _ _ _ => None
  | WriteToFileMsg c _ _ _ _ => Some c
  end.

Inductive SayKind :=
| say_error | say_user_feedback | say_shell_integration_warning
| say_user_feedback_diff.

(** [ClaudeSayTool.tool] of the [user_feedback_diff] notification. *)
Inductive DiffKind := editedExistingFile | newFileCreated.

(** The second argument of [say]: nothing, a text, or the
    [JSON.stringify]-ed [{ tool, path, diff }] object. *)
Inductive SayBody :=
| SayNothing
| SayText (t : jsstring)
| SayDiff (tool : DiffKind) (path diff : jsstring).

(** Calls made to the collaborators. *)
Inductive Effect :=
| EAsk (t : ChatTool)
| EUpdateAsk (t : ChatTool)
| ESay (k : SayKind) (body : SayBody) (images : option (list jsstring))
| EGetOrCreateTerminal
| ETerminalShow
| ERunCommand (command : jsstring) (autoClose : bool)
| EDiffOpen (path : jsstring)
| EDiffUpdate (content : jsstring) (isFinal : bool)
| EDiffRevert
| EDiffSave
| EFileExists (path : jsstring)
| EConsole (line : string) (e : option Exn)
| EUnhandledRejection (e : Exn).

(** What a runner hands back to the agent: the formatter that was called
    and its arguments.  The formatters live in [BaseAgentTool] and
    [utils]. *)
Inductive ToolResponse :=
| RawText (s : jsstring)
| ToolDenied
| ToolDeniedFeedback (text : option jsstring) (images : option (list jsstring))
| ResponseWithImages (text : jsstring) (images : option (list jsstring))
| ToolError (text : jsstring)
| FormatToolResponse (text : jsstring) (images : option (list jsstring)).

(** ** A state-and-exception monad over the collaborator trace *)

Module Runtime.

(** One trace entry: the call, and the exception it raised if it failed.
    A call that raises has no effect on the collaborator. *)
Definition Entry := (Effect * option Exn)%type.

Record World := {
  clock : nat;                     (* collaborator calls made so far *)
  trace : list Entry;
  isProcessingFinalContent : bool; (* WriteFileTool field *)
  isEditing : bool                 (* diffViewProvider.isEditing *)
}.

Definition initialWorld : World :=
  {| clock := 0; trace := []; isProcessingFinalContent := false;
     isEditing := false |}.

Inductive Outcome (A : Type) :=
| Returned (a : A)
| Threw (e : Exn).
Arguments Returned {A} a.
Arguments Threw {A} e.

Definition M (A : Type) := World -> Outcome A * World.

Definition ret {A} (a : A) : M A := fun w => (Returned a, w).

Definition bind {A B} (m : M A) (k : A -> M B) : M B :=
  fun w => match m w with
           | (Returned a, w') => k a w'
           | (Threw e, w') => (Threw e, w')
           end.

Definition throw {A} (e : Exn) : M A := fun w => (Threw e, w).

(** [try { m } catch (error) { h error }] *)
Definition tryCatch {A} (m : M A) (h : Exn -> M A) : M A :=
  fun w => match m w with
           | (Returned a, w') => (Returned a, w')
           | (Threw e, w') => h e w'
           end.

(** [try { m } finally { f }] *)
Definition finally {A} (m : M A) (f : M unit) : M A :=
  fun w => match m w with
           | (o, w') =>
               match f w' with
               | (Returned _, w'') => (o, w'')
               | (Threw e, w'') => (Threw e, w'')
               end
           end.

Definition record (en : Entry) (w : World) : World :=
  {| clock := clock w; trace := trace w ++ [en];
     isProcessingFinalContent := isProcessingFinalContent w;
     isEditing := isEditing w |}.

Definition tick (w : World) : World :=
  {| clock := S (clock w); trace := trace w;
     isProcessingFinalContent := isProcessingFinalContent w;
     isEditing := isEditing w |}.

(** A console line: traced, never fails, not a collaborator call. *)
Definition emit (e : Effect) : M unit :=
  fun w => (Returned tt, record (e, None) w).

Section Calls.

(** [faults n] is the exception raised by the [n]-th collaborator call
    of the run, if that call fails. *)
Variable faults : nat -> option Exn.

(** An awaited (or synchronous) collaborator call. *)
Definition call (e : Effect) : M unit :=
  fun w => (match faults (clock w) with
            | None => Returned tt
            | Some x => Threw x
            end,
            tick (record (e, faults (clock w)) w)).

(** A call to an async collaborator whose promise is not awaited: a
    rejection is not seen by the caller. *)
Definition fire (e : Effect) : M unit :=
  fun w => (Returned tt, snd (call e w)).

(** A call to an async collaborator whose promise is awaited later: the
    call is made now, and the exception it will raise is handed back. *)
Definition start (e : Effect) : M (option Exn) :=
  fun w => (Returned (faults (clock w)), snd (call e w)).

End Calls.

Definition setProcessingFinalContent (b : bool) : M unit :=
  fun w => (Returned tt,
            {| clock := clock w; trace := trace w;
               isProcessingFinalContent := b; isEditing := isEditing w |}).

Definition setEditing (b : bool) : M unit :=
  fun w => (Returned tt,
            {| clock := clock w; trace := trace w;
               isProcessingFinalContent := isProcessingFinalContent w;
               isEditing := b |}).

(** The approval states of the [updateAsk] calls of a trace, in order:
    all of them, and those that did not fail. *)
Fixpoint attempts (tr : list Entry) : list ApprovalState :=
  match tr with
  | [] => []
  | (EUpdateAsk t, _) :: tr' => approvalStateOf t :: attempts tr'
  | _ :: tr' => attempts tr'
  end.

Fixpoint broadcasts (tr : list Entry) : list ApprovalState :=
  match tr with
  | [] => []
  | (EUpdateAsk t, None) :: tr' => approvalStateOf t :: broadcasts tr'
  | _ :: tr' => broadcasts tr'
  end.

(** The calls of a trace, without their outcome. *)
Definition calls (tr : list Entry) : list Effect := List.map fst tr.

Definition isTerminal (s : ApprovalState) : bool :=
  match s with
  | rejected | approved | error => true
  | pending | loading => false
  end.

Definition isSpawn (e : Effect) : bool :=
  match e with
  | EGetOrCreateTerminal | ETerminalShow | ERunCommand _ _ => true
  | _ => false
  end.

Definition isCommit (e : Effect) : bool :=
  match e with
  | EDiffSave => true
  | _ => false
  end.

End Runtime.

Import Runtime.

Declare Scope run_scope.
Delimit Scope run_scope with run.
Notation "x <- m ;; k" := (bind m (fun x => k))
  (at level 100, m at next level, right associativity) : run_scope.
Notation "m ;;; k" := (bind m (fun _ => k))
  (at level 100, right associativity) : run_scope.

(** ** [ExecuteCommandTool] *)

Module ExecuteCommandTool.

Open Scope run_scope.

(** Events of the process handle returned by [runCommand]. *)
Inductive ProcessEvent :=
| Line (line : jsstring)
| Completed
| ProcessError (e : jsstring)
| NoShellIntegration.

(** What the event loop delivers while [executeShellTerminal] is
    suspended: an event of the process, or the end of what the engine is
    waiting on, at which it resumes.  The engine waits four times once the
    process runs: on the 45 s timer of the race, on the 300 ms grace delay,
    on the [approved] broadcast, and on the formatter of its result; the
    listeners stay installed throughout, so events are handled during each
    of these waits.  A timeline that ends while the engine still waits is
    followed by the end of that wait.  What is left of the timeline when
    [execute] returns reaches the listeners after the run. *)
Inductive Tick :=
| Emit (ev : ProcessEvent)
| Resumes.

Record Env := {
  faults : nat -> option Exn;
  (** [JSON.stringify(serializeError(error), null, 2)] *)
  serializeError : Exn -> jsstring;
  (** [terminalManager instanceof AdvancedTerminalManager] *)
  terminalManagerIsAdvanced : bool;
  alwaysAllowWriteOnly : bool;
  returnEmptyStringOnSuccess : bool;
  autoCloseTerminal : option bool;
  ts : N;
  isSubMsg : option bool;
  askAnswer : AskResult;
  (** the handle returned by [runCommand] ([None] is [null]) and the
      events it will deliver *)
  runCommandAnswer : option (list Tick)
}.

(** The variables the event handlers close over, and [this.output]. *)
Record Local := {
  output : jsstring;
  earlyExit : EarlyExitState;
  completed : bool;
  completedArmed : bool;   (* the [once("completed")] listener is installed *)
  noShellArmed : bool      (* the [once("no_shell_integration")] one *)
}.

Definition initialLocal : Local :=
  {| output := []; earlyExit := exitPending; completed := false;
     completedArmed := true; noShellArmed := true |}.

(** [let didContinue = false] and [let userFeedback] are never assigned. *)
Definition didContinue : bool := false.
Definition userFeedback : option (option jsstring * option (list jsstring)) :=
  None.

Definition isApprovedState (state : EarlyExitState) : bool :=
  match state with exitApproved => true | _ => false end.

Definition noShellMessage : jsstring :=
  js "No shell integration, cannot run commands please enable shell integration otherwise commands will not run.".

Section Engine.

Variable env : Env.

Definition msg (command : jsstring) (out : option jsstring)
    (state : ApprovalState) (early : option EarlyExitState)
    (feedback : option jsstring) : ChatTool :=
  ExecuteCommandMsg command out state early feedback (ts env) (isSubMsg env).

Definition ask (t : ChatTool) : M AskResult :=
  call (faults env) (EAsk t) ;;; ret (askAnswer env).

Definition runCommand (command : jsstring) : M (option (list Tick)) :=
  call (faults env)
    (ERunCommand command (orElse (autoCloseTerminal env) false)) ;;;
  ret (runCommandAnswer env).

(** [process.on("line", async (line) => ...)] *)
Definition onLine (command line : jsstring) (st : Local) : M Local :=
  let cleanedLine := line in
  if isEmpty cleanedLine then ret st
  else
    let st :=
      {| output := output st ++ cleanedLine ++ [nl];
         earlyExit := earlyExit st; completed := completed st;
         completedArmed := completedArmed st;
         noShellArmed := noShellArmed st |} in
    if negb didContinue || isApprovedState (earlyExit st) then
      tryCatch
        (call (faults env)
           (EUpdateAsk (msg command (Some (output st)) loading
                          (Some (earlyExit st)) None)))
        (fun caught => emit (EConsole "Failed to update output:" (Some caught))) ;;;
      ret st
    else ret st.

(** [process.once("completed", () => ...)] *)
Definition onCompleted (st : Local) : M Local :=
  if completedArmed st then
    ret {| output := output st; earlyExit := exitApproved;
           completed := true; completedArmed := false;
           noShellArmed := noShellArmed st |}
  else ret st.

(** [process.on("error", async (error) => ...)] *)
Definition onError (e : jsstring) (st : Local) : M Local :=
  emit (EConsole "Error in process:" (Some (ThrownValue None e))) ;;; ret st.

(** [process.once("no_shell_integration", async () => ...)]: the
    exception is raised inside the listener, whose promise nobody
    awaits. *)
Definition onNoShellIntegration (st : Local) : M Local :=
  if noShellArmed st then
    tryCatch
      (call (faults env) (ESay say_shell_integration_warning SayNothing None) ;;;
       throw (ErrorOf noShellMessage))
      (fun caught => emit (EUnhandledRejection caught)) ;;;
    ret {| output := output st; earlyExit := earlyExit st;
           completed := completed st;
           completedArmed := completedArmed st; noShellArmed := false |}
  else ret st.

Definition dispatch (command : jsstring) (ev : ProcessEvent) (st : Local)
    : M Local :=
  match ev with
  | Line l => onLine command l st
  | Completed => onCompleted st
  | ProcessError e => onError e st
  | NoShellIntegration => onNoShellIntegration st
  end.

Definition timedOut : M unit :=
  emit (EConsole "Command timed out after 45000 ms" None).

(** [await Promise.race([completionPromise, delay(COMMAND_TIMEOUT)...])]:
    events are handled until the completion promise resolves or the
    timer fires; the rest of the timeline is returned. *)
Fixpoint race (command : jsstring) (tl : list Tick) (st : Local)
    : M (Local * list Tick) :=
  match tl with
  | [] => timedOut ;;; ret (st, [])
  | Resumes :: rest => timedOut ;;; ret (st, rest)
  | Emit ev :: rest =>
      st' <- dispatch command ev st ;;
      if completed st' then ret (st', rest) else race command rest st'
  end.

(** The engine is suspended, as in [await delay(300)]: the listeners
    handle the events that arrive until it resumes. *)
Fixpoint flush (command : jsstring) (tl : list Tick) (st : Local)
    : M (Local * list Tick) :=
  match tl with
  | [] => ret (st, [])
  | Resumes :: rest => ret (st, rest)
  | Emit ev :: rest =>
      st' <- dispatch command ev st ;; flush command rest st'
  end.

(** [(error as Error)?.message || JSON.stringify(serializeError(error), null, 2)] *)
Definition errorMessageOf (e : Exn) : jsstring :=
  match messageOf e with
  | Some m => orDefault m (serializeError env e)
  | None => serializeError env e
  end.

Definition outputSection (st : Local) : jsstring :=
  if completed st
  then js "

Output:
<output>
" ++ orDefault (output st) (js "No output") ++ js "
</output>"
  else js "

Partial output available:
<output>
" ++ orDefault (output st) (js "No output") ++ js "
</output>".

(** The variables of the suspended engine and the events still to come. *)
Definition Pending := (Local * list Tick)%type.

(** [await] of a collaborator call made while the process runs: the call
    is made, the listeners handle the events that arrive before it settles,
    and its exception, if any, is handed back with the variables and the
    rest of the timeline, which an exception leaves as they are. *)
Definition awaiting (command : jsstring) (e : Effect) (p : Pending)
    : M (option Exn * Pending) :=
  outcome <- start (faults env) e ;;
  p <- flush command (snd p) (fst p) ;;
  ret (outcome, p).

(** The end of the [try] block: the result, and the wait for
    [formatToolResponseWithImages]. *)
Definition finish (command toolRes : jsstring)
    (fbImages : option (list jsstring)) (p : Pending)
    : M (Outcome ToolResponse * Pending) :=
  if returnEmptyStringOnSuccess env then
    p' <- flush command (snd p) (fst p) ;;
    ret (Returned (ResponseWithImages [] (Some [])), p')
  else
    let toolRes := toolRes ++ outputSection (fst p) in
    p' <- flush command (snd p) (fst p) ;;
    ret (Returned (ResponseWithImages toolRes fbImages), p').

(** The [try] block of [executeShellTerminal], with the way it ends
    ([Threw] is the exception handed to the [catch]) and what it leaves of
    the variables and of the timeline. *)
Definition raceAndFinalize (command : jsstring) (tl : list Tick)
    : M (Outcome ToolResponse * Pending) :=
  p <- race command tl initialLocal ;;
  p <- flush command (snd p) (fst p) ;;
  a <- awaiting command
         (EUpdateAsk (msg command (Some (output (fst p))) approved
                        (Some (earlyExit (fst p))) None)) p ;;
  match fst a with
  | Some caught => ret (Threw caught, snd a)
  | None =>
      let p := snd a in
      let toolRes :=
        if completed (fst p)
        then js "Command execution completed successfully."
        else js "The command has been executed." in
      let fbText :=
        match userFeedback with Some fb => fst fb | None => None end in
      let fbImages :=
        match userFeedback with Some fb => snd fb | None => None end in
      if negb (isEmpty (orElse fbText []))
         || negb (Nat.eqb (List.length (orElse fbImages [])) 0)
      then
        let toolRes := toolRes ++ js "

User feedback:
<feedback>
" ++ orElse fbText (js "undefined") ++ js "
</feedback>" in
        b <- awaiting command
               (EUpdateAsk (msg command (Some (output (fst p))) approved
                              (Some (earlyExit (fst p))) fbText)) p ;;
        match fst b with
        | Some caught => ret (Threw caught, snd b)
        | None => finish command toolRes fbImages (snd b)
        end
      else finish command toolRes fbImages p
  end.

(** [try { ... } catch (error) { ... }]: the [catch] broadcasts the error
    without awaiting the call, then waits for [formatToolError]. *)
Definition tryRaceAndFinalize (command : jsstring) (tl : list Tick)
    : M ToolResponse :=
  t <- raceAndFinalize command tl ;;
  match fst t with
  | Returned r => ret r
  | Threw caught =>
      let errorMessage := errorMessageOf caught in
      fire (faults env)
        (EUpdateAsk (msg command (Some errorMessage) error None None)) ;;;
      flush command (snd (snd t)) (fst (snd t)) ;;;
      ret (ToolError (js "Error executing command:
" ++ errorMessage))
  end.

Definition executeShellTerminal (command : jsstring) : M ToolResponse :=
  if negb (terminalManagerIsAdvanced env) then
    throw (ErrorOf (js "AdvancedTerminalManager is not available"))
  else
    a <- ask (msg command None pending None None) ;;
    if negb (responseIs yesButtonTapped (response a)) then
      fire (faults env) (EUpdateAsk (msg command None rejected None None)) ;;;
      if responseIs messageResponse (response a)
         && negb (alwaysAllowWriteOnly env)
      then
        call (faults env)
          (EUpdateAsk (msg command None rejected None (text a))) ;;;
        call (faults env)
          (ESay say_user_feedback
             (SayText (orElse (text a) (js "The user denied this operation.")))
             (images a)) ;;;
        ret (ToolDeniedFeedback (text a) (images a))
      else ret ToolDenied
    else
      fire (faults env) (EUpdateAsk (msg command None loading None None)) ;;;
      call (faults env) EGetOrCreateTerminal ;;;
      call (faults env) ETerminalShow ;;;
      process <- runCommand command ;;
      match process with
      | None =>
          throw (ErrorOf (js "Failed to create terminal process after retries"))
      | Some tl => tryRaceAndFinalize command tl
      end.

(** [execute()]: [input.command] may be missing. *)
Definition execute (command : option jsstring) : M ToolResponse :=
  match command with
  | Some c =>
      if isEmpty (trim c) then
        call (faults env)
          (ESay say_error
             (SayText (js "Claude tried to use execute_command without value for required parameter 'command'. Retrying..."))
             None) ;;;
        ret (RawText (js "Error: Missing or empty command parameter. Please provide a valid command."))
      else executeShellTerminal c
  | None =>
      call (faults env)
        (ESay say_error
           (SayText (js "Claude tried to use execute_command without value for required parameter 'command'. Retrying..."))
           None) ;;;
      ret (RawText (js "Error: Missing or empty command parameter. Please provide a valid command."))
  end.

Definition run (command : option jsstring) : Outcome ToolResponse * World :=
  execute command initialWorld.

End Engine.

End ExecuteCommandTool.

(** ** [WriteFileTool] *)

Module WriteFileTool.

Open Scope run_scope.

Record Env := {
  faults : nat -> option Exn;
  (** [String(error)] for a thrown value that is not an [Error] *)
  stringOf : Exn -> jsstring;
  (** [relPath.toPosix()] *)
  toPosix : jsstring -> jsstring;
  (** [getReadablePath(getCwd(), relPath)] *)
  getReadablePath : jsstring -> jsstring;
  ts : N;
  askAnswer : AskResult;
  (** [diffViewProvider.isDiffViewOpen()] when the preview starts *)
  isDiffViewOpen : bool;
  (** [fileExistsAtPath(path.resolve(getCwd(), relPath))] *)
  fileExistsAtPath : bool;
  (** [userEdits] of [diffViewProvider.saveChanges()] *)
  userEdits : option jsstring
}.

Definition cancelled : jsstring := js "Write operation cancelled by user.".

Section Engine.

Variable env : Env.

Definition msg (content path : jsstring) (state : ApprovalState)
    (feedback : option jsstring) : ChatTool :=
  WriteToFileMsg content path state feedback (ts env).

Definition ask (t : ChatTool) : M AskResult :=
  call (faults env) (EAsk t) ;;; ret (askAnswer env).

Definition showChangesInDiffView (relPath content : jsstring) : M unit :=
  let content := preprocessContent content in
  (if negb (isDiffViewOpen env)
   then call (faults env) (EDiffOpen relPath)
   else ret tt) ;;;
  call (faults env) (EDiffUpdate content true).

Definition checkFileExists (relPath : jsstring) : M bool :=
  call (faults env) (EFileExists relPath) ;;; ret (fileExistsAtPath env).

Definition saveChanges : M (option jsstring) :=
  call (faults env) EDiffSave ;;; ret (userEdits env).

Definition savedWithEdits (edits relPath : jsstring) : jsstring :=
  js "The user made the following updates to your content:

" ++ edits ++ js "

The updated content has been successfully saved to " ++ toPosix env relPath
    ++ js ". (Note: you don't need to re-write the file with these changes.)".

Definition savedPlain (relPath : jsstring) : jsstring :=
  js "The content was successfully saved to " ++ toPosix env relPath
    ++ js ". Do not read the file again unless you forgot the content.".

(** [error instanceof Error ? error.message : String(error)] *)
Definition errorTextOf (e : Exn) : jsstring :=
  match e with
  | ErrorOf m => m
  | ThrownValue _ _ => stringOf env e
  end.

(** The body of the [try] block of [processFileWrite]. *)
Definition tryProcessFileWrite (path content : option jsstring)
    : M ToolResponse :=
  let relPath := orElse path [] in
  let content := orElse content [] in
  if isEmpty relPath || isEmpty content then
    throw (ErrorOf (js "Missing required parameters 'path' or 'content'"))
  else
    setProcessingFinalContent true ;;;
    showChangesInDiffView relPath content ;;;
    emit (EConsole "Asking for user approval" None) ;;;
    a <- ask (msg content relPath pending None) ;;
    if negb (responseIs yesButtonTapped (response a)) then
      call (faults env) EDiffRevert ;;;
      call (faults env) (EUpdateAsk (msg content relPath rejected (text a))) ;;;
      if responseIs noButtonTapped (response a) then
        ret (FormatToolResponse cancelled None)
      else
        call (faults env)
          (ESay say_user_feedback
             (SayText (orElse (text a) (js "The user denied this operation.")))
             (images a)) ;;;
        ret (FormatToolResponse (orElse (text a) cancelled) (images a))
    else
      fileExists <- checkFileExists relPath ;;
      edits <- saveChanges ;;
      call (faults env) (EUpdateAsk (msg content relPath approved None)) ;;;
      if negb (isEmpty (orElse edits [])) then
        call (faults env)
          (ESay say_user_feedback_diff
             (SayDiff (if fileExists then editedExistingFile else newFileCreated)
                (getReadablePath env relPath) (orElse edits []))
             None) ;;;
        ret (FormatToolResponse (savedWithEdits (orElse edits []) relPath) None)
      else
        ret (FormatToolResponse (savedPlain relPath) None).

Definition processFileWrite (path content : option jsstring)
    : M ToolResponse :=
  finally
    (tryCatch (tryProcessFileWrite path content)
       (fun caught =>
          emit (EConsole "Error in processFileWrite:" (Some caught)) ;;;
          ret (FormatToolResponse
                 (js "Write to File Error With:" ++ errorTextOf caught) None)))
    (setProcessingFinalContent false ;;; setEditing false).

Definition execute (path content : option jsstring) : M ToolResponse :=
  result <- processFileWrite path content ;; ret result.

Definition run (path content : option jsstring)
    : Outcome ToolResponse * World :=
  execute path content initialWorld.

End Engine.

End WriteFileTool.

(** ** Vocabulary of the statements *)

(** A string is trimmed at its start when it does not begin with white
    space. *)
Definition startTrimmed (s : jsstring) : Prop :=
  match s with [] => True | c :: _ => isWhiteSpace c = false end.

(** What the event handlers may add to the trace: [loading] broadcasts,
    console lines, the shell-integration warning and the rejection of a
    listener. *)
Definition streamingEntry (en : Entry) : bool :=
  match fst en with
  | EUpdateAsk t =>
      match approvalStateOf t with loading => true | _ => false end
  | ESay say_shell_integration_warning _ _ => true
  | EConsole _ _ | EUnhandledRejection _ => true
  | _ => false
  end.

(** The last element of a list, if any. *)
Definition lastOf {A : Type} (l : list A) : option A :=
  match rev l with
  | [] => None
  | x :: _ => Some x
  end.

(** The terminal state is [error], and the [updateAsk] call that carries
    it failed. *)
Definition errorBroadcastFailed (s : ApprovalState) (tr : list Entry)
    : Prop :=
  s = error /\
  exists t x, In (EUpdateAsk t, Some x) tr /\ approvalStateOf t = error.

(** Definitions used to state the properties of the command engine. *)

Module CommandSpec.

Import ExecuteCommandTool.

Definition isCompleted (ev : ProcessEvent) : bool :=
  match ev with Completed => true | _ => false end.

Definition hasCompleted (evs : list ProcessEvent) : bool :=
  existsb isCompleted evs.

(** What a sequence of events contributes to the buffer: every non-empty
    line followed by a newline, in order. *)
Fixpoint bufferOf (evs : list ProcessEvent) : jsstring :=
  match evs with
  | [] => []
  | Line l :: rest => (if isEmpty l then [] else l ++ [nl]) ++ bufferOf rest
  | _ :: rest => bufferOf rest
  end.

(** The events handled during the race: up to the first [completed], or
    up to the expiry of the 45 s timer. *)
Fixpoint duringRace (tl : list Tick) : list ProcessEvent :=
  match tl with
  | [] => []
  | Resumes :: _ => []
  | Emit Completed :: _ => [Completed]
  | Emit ev :: rest => ev :: duringRace rest
  end.

Fixpoint afterRace (tl : list Tick) : list Tick :=
  match tl with
  | [] => []
  | Resumes :: rest => rest
  | Emit Completed :: rest => rest
  | Emit _ :: rest => afterRace rest
  end.

(** The events handled during a wait that ends when the engine resumes:
    the 300 ms grace delay, and each of the waits after it. *)
Fixpoint duringGrace (tl : list Tick) : list ProcessEvent :=
  match tl with
  | [] => []
  | Resumes :: _ => []
  | Emit ev :: rest => ev :: duringGrace rest
  end.

Fixpoint afterGrace (tl : list Tick) : list Tick :=
  match tl with
  | [] => []
  | Resumes :: rest => rest
  | Emit _ :: rest => afterGrace rest
  end.

(** The events handled before the [approved] broadcast is made: during
    the race and the grace delay. *)
Definition streamed (tl : list Tick) : list ProcessEvent :=
  duringRace tl ++ duringGrace (afterRace tl).

(** The timeline when the [approved] broadcast is made. *)
Definition afterDelay (tl : list Tick) : list Tick :=
  afterGrace (afterRace tl).

(** The events handled while the engine awaits the [approved] broadcast,
    and those handled while it awaits the formatter of its result. *)
Definition duringApproval (tl : list Tick) : list ProcessEvent :=
  duringGrace (afterDelay tl).

Definition duringReturn (tl : list Tick) : list ProcessEvent :=
  duringGrace (afterGrace (afterDelay tl)).

(** Everything the handlers have seen when the engine finalizes, that is
    when it reads [completed] and [this.output] for its result. *)
Definition delivered (tl : list Tick) : list ProcessEvent :=
  streamed tl ++ duringApproval tl.

(** The events handled after the grace delay. *)
Definition late (tl : list Tick) : list ProcessEvent :=
  duringApproval tl ++ duringReturn tl.

(** Everything the handlers see before [execute] returns. *)
Definition handled (tl : list Tick) : list ProcessEvent :=
  streamed tl ++ late tl.

(** The event loop handing a sequence of events to the listeners. *)
Fixpoint deliver (env : Env) (command : jsstring) (evs : list ProcessEvent)
    (st : Local) : M Local :=
  match evs with
  | [] => ret st
  | ev :: rest =>
      bind (dispatch env command ev st) (deliver env command rest)
  end.

(** The listeners keep [earlyExit] and the [once] registration in step
    with [completed]. *)
Definition Inv (st : Local) : Prop :=
  completedArmed st = negb (completed st) /\
  earlyExit st = (if completed st then exitApproved else exitPending).

(** What the handlers may add to the trace for the events [evs]: entries
    of the handlers only, and no [updateAsk] call at all when none of the
    events is a non-empty line. *)
Definition Handled (evs : list ProcessEvent) (d : list Entry) : Prop :=
  forallb streamingEntry d = true /\
  (bufferOf evs = [] -> attempts d = []).

(** [w'] extends [w] by what the handlers add for [evs]. *)
Definition Extends (evs : list ProcessEvent) (w w' : World) : Prop :=
  exists d, trace w' = trace w ++ d /\ Handled evs d.

(** No non-empty line reaches the listeners after the grace delay. *)
Definition quietAfterGrace (env : Env) : Prop :=
  forall tl, runCommandAnswer env = Some tl -> bufferOf (late tl) = [].

Definition noFaults (env : Env) : Prop := forall k, faults env k = None.

(** The first five collaborator calls of an approved run: the prompt, the
    [loading] broadcast, the terminal, its display and [runCommand]. *)
Definition spawnSucceeds (env : Env) : Prop :=
  forall k, k < 5 -> faults env k = None.

Definition successText (st : Local) : jsstring :=
  (if completed st then js "Command execution completed successfully."
   else js "The command has been executed.") ++ outputSection st.

Definition success (env : Env) (st : Local) : ToolResponse :=
  if returnEmptyStringOnSuccess env
  then ResponseWithImages [] (Some [])
  else ResponseWithImages (successText st) None.

Definition failure (env : Env) (x : Exn) : ToolResponse :=
  ToolError (js "Error executing command:
" ++ errorMessageOf env x).

Definition approvedBroadcast (env : Env) (command : jsstring) (st : Local)
    : Effect :=
  EUpdateAsk (msg env command (Some (output st)) approved
                (Some (earlyExit st)) None).

Definition errorBroadcast (env : Env) (command : jsstring) (x : Exn)
    : Effect :=
  EUpdateAsk (msg env command (Some (errorMessageOf env x)) error None None).

Definition spawnTrace (env : Env) (command : jsstring) : list Entry :=
  [(EAsk (msg env command None pending None None), None);
   (EUpdateAsk (msg env command None loading None None), None);
   (EGetOrCreateTerminal, None);
   (ETerminalShow, None);
   (ERunCommand command (orElse (autoCloseTerminal env) false), None)].

(** An example environment: no collaborator call fails. *)
Definition sampleEnv (a : AskResult) (process : option (list Tick))
    (quiet : bool) : Env :=
  {| faults := fun _ => None;
     serializeError := fun _ => js "{}";
     terminalManagerIsAdvanced := true;
     alwaysAllowWriteOnly := false;
     returnEmptyStringOnSuccess := quiet;
     autoCloseTerminal := None;
     ts := 1%N;
     isSubMsg := None;
     askAnswer := a;
     runCommandAnswer := process |}.

Definition accept : AskResult :=
  {| response := yesButtonTapped; text := None; images := None |}.

(** An example environment: the command is accepted, the process prints
    two lines, the second one while the [approved] broadcast is awaited,
    and that broadcast, the seventh call, fails with [x]. *)
Definition failingEnv (x : Exn) : Env :=
  {| faults := fun k => if Nat.eqb k 6 then Some x else None;
     serializeError := fun _ => js "{}";
     terminalManagerIsAdvanced := true;
     alwaysAllowWriteOnly := false;
     returnEmptyStringOnSuccess := false;
     autoCloseTerminal := None;
     ts := 1%N;
     isSubMsg := None;
     askAnswer := accept;
     runCommandAnswer :=
       Some [Emit (Line (js "hi")); Resumes; Resumes;
             Emit (Line (js "late"))] |}.

(** Every payload of a line event followed by a newline, empty payloads
    included: the buffer as C4 words it. *)
Fixpoint everyLine (evs : list ProcessEvent) : jsstring :=
  match evs with
  | [] => []
  | Line l :: rest => l ++ [nl] ++ everyLine rest
  | _ :: rest => everyLine rest
  end.

Definition bufferAfter (env : Env) (command : jsstring)
    (evs : list ProcessEvent) : option jsstring :=
  match fst (deliver env command evs initialLocal initialWorld) with
  | Returned st => Some (output st)
  | Threw _ => None
  end.

End CommandSpec.

(** Definitions used to state the properties of the file-write engine. *)

Module WriteSpec.

Import WriteFileTool.

Definition noFaults (env : Env) : Prop := forall k, faults env k = None.

(** The preview: the diff view is opened unless it already is, then the
    preprocessed content is pushed as final. *)
Definition preview (env : Env) (path content : jsstring) : list Effect :=
  (if isDiffViewOpen env then [] else [EDiffOpen path])
  ++ [EDiffUpdate (preprocessContent content) true].

(** The feedback notification of a write that was not accepted. *)
Definition rejectionNotice (a : AskResult) : list Effect :=
  match response a with
  | noButtonTapped => []
  | _ => [ESay say_user_feedback
            (SayText (orElse (text a) (js "The user denied this operation.")))
            (images a)]
  end.

(** An example environment: no collaborator call fails, the diff view is
    closed, the file exists. *)
Definition sampleEnv (a : AskResult) (edits : option jsstring) : Env :=
  {| faults := fun _ => None;
     stringOf := fun _ => js "error";
     toPosix := fun p => p;
     getReadablePath := fun p => p;
     ts := 1%N;
     askAnswer := a;
     isDiffViewOpen := false;
     fileExistsAtPath := true;
     userEdits := edits |}.

(** What the engine may say about content: the channel sees the caller's
    string, the diff view sees the preprocessed one, pushed as final. *)
Definition speaksOf (content : jsstring) (e : Effect) : Prop :=
  match e with
  | EAsk t | EUpdateAsk t => contentOf t = Some content
  | EDiffUpdate c b => c = preprocessContent content /\ b = true
  | _ => True
  end.

End WriteSpec.

(** ** [WriteFileTool.handlePartialUpdate] and [abortToolExecution] *)

From Stdlib Require Import ZArith.

Module WriteFilePartial.

Import WriteFileTool.

Open Scope run_scope.

(** [private readonly UPDATE_INTERVAL = 8] *)
Definition UPDATE_INTERVAL : Z := 8%Z.

(** Reading [this.isProcessingFinalContent]. *)
Definition processingFinalContent : M bool :=
  fun w => (Returned (isProcessingFinalContent w), w).

Section Partial.

Variable env : Env.

(** [this.skipWriteAnimation], set by the constructor from the state
    manager. *)
Variable skipWriteAnimation : bool.

(** What [Date.now()] answers in this call. *)
Variable now : Z.

(** [handlePartialUpdate(relPath, content)]: [this.lastUpdateTime] is passed
    in and its new value is returned; when the call throws the field keeps
    its value. *)
Definition handlePartialUpdate (lastUpdateTime : Z)
    (relPath content : jsstring) : M Z :=
  processing <- processingFinalContent ;;
  if processing then
    emit (EConsole "Skipping partial update because the tool is processing the final content." None) ;;;
    ret lastUpdateTime
  else if skipWriteAnimation then
    fire (faults env) (EUpdateAsk (msg env content relPath loading None)) ;;;
    ret lastUpdateTime
  else
    let currentTime := now in
    if (currentTime - lastUpdateTime <? UPDATE_INTERVAL)%Z then
      ret lastUpdateTime
    else
      opened <-
        (if negb (isDiffViewOpen env) then
           tryCatch
             (call (faults env) (EDiffOpen relPath) ;;; ret true)
             (fun e =>
                emit (EConsole "Error opening diff view: " (Some e)) ;;;
                ret false)
         else ret true) ;;
      if opened then
        call (faults env) (EDiffUpdate content false) ;;;
        ret currentTime
      else ret lastUpdateTime.

(** [abortToolExecution()] *)
Definition abortToolExecution : M unit :=
  emit (EConsole "Aborting WriteFileTool execution" None) ;;;
  call (faults env) EDiffRevert.

End Partial.

End WriteFilePartial.

(** ** [ExecuteCommandTool.formatImagesIntoBlocks] and
       [formatIntoToolResponse] *)

Module ImageBlocks.

Definition comma : jschar := 44%N.
Definition colon : jschar := 58%N.
Definition semicolon : jschar := 59%N.

(** [{ type: "image", source: { type: "base64", media_type, data } }];
    [data] is [undefined] when the data URL has no comma. *)
Record ImageBlock := {
  media_type : jsstring;
  data : option jsstring
}.

(** The callback of [images.map]: [None] is the [TypeError] raised by
    [rest.split(":")[1].split(";")] when [rest] has no colon. *)
Definition imageBlockOf (dataUrl : jsstring) : option ImageBlock :=
  let parts := split comma dataUrl in
  let rest := hd [] parts in
  let base64 := nth_error parts 1 in
  match nth_error (split colon rest) 1 with
  | None => None
  | Some afterColon =>
      let mimeType := hd [] (split semicolon afterColon) in
      Some {| media_type := mimeType; data := base64 |}
  end.

(** [images.map(f)] with a callback that may throw. *)
Fixpoint mapBlocks (images : list jsstring) : option (list ImageBlock) :=
  match images with
  | [] => Some []
  | dataUrl :: rest =>
      match imageBlockOf dataUrl with
      | None => None
      | Some b =>
          match mapBlocks rest with
          | None => None
          | Some bs => Some (b :: bs)
          end
      end
  end.

(** [images?.map(...) ?? []] *)
Definition formatImagesIntoBlocks (images : option (list jsstring))
    : option (list ImageBlock) :=
  match images with
  | None => Some []
  | Some l => mapBlocks l
  end.

(** A [ToolResponse]: the text, or the text block followed by the image
    blocks. *)
Inductive BlockResponse :=
| TextOnly (text : jsstring)
| TextAndImages (text : jsstring) (blocks : list ImageBlock).

(** [formatIntoToolResponse(text, images)] *)
Definition formatIntoToolResponse (text : jsstring)
    (images : option (list jsstring)) : option BlockResponse :=
  if negb (Nat.eqb (List.length (orElse images [])) 0) then
    match formatImagesIntoBlocks images with
    | None => None
    | Some imageBlocks => Some (TextAndImages text imageBlocks)
    end
  else Some (TextOnly text).

(** A well-formed data URL. *)
Definition dataUrlOf (mime payload : jsstring) : jsstring :=
  js "data:" ++ mime ++ js ";base64," ++ payload.

End ImageBlocks.

(** ** More vocabulary of the statements *)

(** [s] does not contain the character [c]. *)
Definition lacks (c : jschar) (s : jsstring) : bool :=
  forallb (fun x => negb (x =? c)%N) s.

(** A mime type that can stand in a data URL: no comma, colon or
    semicolon. *)
Definition plainMime (mime : jsstring) : bool :=
  lacks ImageBlocks.comma mime && lacks ImageBlocks.colon mime
  && lacks ImageBlocks.semicolon mime.

(** The timeline without the [error] and [no_shell_integration] events of
    the process. *)
Definition isNoise (ev : ExecuteCommandTool.ProcessEvent) : bool :=
  match ev with
  | ExecuteCommandTool.ProcessError _ | ExecuteCommandTool.NoShellIntegration => true
  | _ => false
  end.

Definition withoutNoise (tl : list ExecuteCommandTool.Tick)
    : list ExecuteCommandTool.Tick :=
  filter (fun t => match t with
                   | ExecuteCommandTool.Emit ev => negb (isNoise ev)
                   | ExecuteCommandTool.Resumes => true
                   end) tl.

(** The environment [env] with another process behind [runCommand]. *)
Definition withProcess (env : ExecuteCommandTool.Env)
    (tl : list ExecuteCommandTool.Tick) : ExecuteCommandTool.Env :=
  {| ExecuteCommandTool.faults := ExecuteCommandTool.faults env;
     ExecuteCommandTool.serializeError := ExecuteCommandTool.serializeError env;
     ExecuteCommandTool.terminalManagerIsAdvanced :=
       ExecuteCommandTool.terminalManagerIsAdvanced env;
     ExecuteCommandTool.alwaysAllowWriteOnly :=
       ExecuteCommandTool.alwaysAllowWriteOnly env;
     ExecuteCommandTool.returnEmptyStringOnSuccess :=
       ExecuteCommandTool.returnEmptyStringOnSuccess env;
     ExecuteCommandTool.autoCloseTerminal :=
       ExecuteCommandTool.autoCloseTerminal env;
     ExecuteCommandTool.ts := ExecuteCommandTool.ts env;
     ExecuteCommandTool.isSubMsg := ExecuteCommandTool.isSubMsg env;
     ExecuteCommandTool.askAnswer := ExecuteCommandTool.askAnswer env;
     ExecuteCommandTool.runCommandAnswer := Some tl |}.

(** The output carried by a [loading] or [approved] broadcast of a
    command. *)
Definition streamedOutput (e : Effect) : option jsstring :=
  match e with
  | EUpdateAsk (ExecuteCommandMsg _ (Some o) loading _ _ _ _)
  | EUpdateAsk (ExecuteCommandMsg _ (Some o) approved _ _ _ _) => Some o
  | _ => None
  end.

(** The outputs streamed to the approval channel, in order. *)
Fixpoint outputsOf (tr : list Entry) : list jsstring :=
  match tr with
  | [] => []
  | en :: rest =>
      match streamedOutput (fst en) with
      | Some o => o :: outputsOf rest
      | None => outputsOf rest
      end
  end.

(** Each string of the list extends the one before it, the first one
    extends [lo], and [hi] extends the last one. *)
Fixpoint chainTo (lo hi : jsstring) (l : list jsstring) : Prop :=
  match l with
  | [] => exists b, hi = lo ++ b
  | o :: rest => (exists a, o = lo ++ a) /\ chainTo o hi rest
  end.

(** A prompt or a broadcast of the invocation of [command]: it carries the
    command, the [ts] and the [isSubMsg] of the invocation, and its
    [earlyExit], if any, is not [rejected]. *)
Definition keyed (env : ExecuteCommandTool.Env) (command : jsstring)
    (e : Effect) : Prop :=
  match e with
  | EAsk t | EUpdateAsk t =>
      exists o s early f,
        t = ExecuteCommandTool.msg env command o s early f /\
        early <> Some exitRejected
  | _ => True
  end.

(** Vocabulary of the statements on file writes. *)
Module WriteMore.

Import WriteFileTool.

(** The prompt of a file write. *)
Definition prompt (env : Env) (path content : jsstring) : Entry :=
  (EAsk (msg env content path pending None), None).

(** Calls to the diff view provider. *)
Definition isDiffCall (e : Effect) : bool :=
  match e with
  | EDiffOpen _ | EDiffUpdate _ _ | EDiffRevert | EDiffSave => true
  | _ => false
  end.

Definition noFaults (env : Env) : Prop := forall k, faults env k = None.

Definition skipWarning : Entry :=
  (EConsole "Skipping partial update because the tool is processing the final content." None,
   None).

End WriteMore.

(** Vocabulary of the statements on commands. *)
Module CommandMoreSpec.

Import ExecuteCommandTool.

(** The notification of a missing command. *)
Definition missingCommand : Effect :=
  ESay say_error
    (SayText (js "Claude tried to use execute_command without value for required parameter 'command'. Retrying..."))
    None.

(** The events of a list that are neither [error] nor
    [no_shell_integration]. *)
Definition keepEvents (evs : list ProcessEvent) : list ProcessEvent :=
  filter (fun ev => negb (isNoise ev)) evs.

(** What the engine and its handlers add to the trace while the buffer
    goes from that of [st] to that of [st']: the outputs they stream grow
    from the one to the other, the last of them is the buffer reached, and
    the buffer is unchanged when they stream none. *)
Definition GrownBy (env : Env) (command : jsstring)
    (st st' : Local) (w w' : World) : Prop :=
  exists d,
    trace w' = trace w ++ d /\
    chainTo (output st) (output st') (outputsOf d) /\
    (outputsOf d = [] -> output st' = output st) /\
    (forall o, lastOf (outputsOf d) = Some o -> o = output st') /\
    Forall (keyed env command) (calls d).

End CommandMoreSpec.

(** * Lemmas and theorems *)

(** ** String lemmas *)

Section StringFacts.

Lemma replaceAll_self (c : jschar) (s : jsstring) :
  replaceAll c [c] s = s.
Proof.
  induction s as [|x s IH]; simpl; [reflexivity|].
  rewrite IH. destruct (N.eqb_spec x c); subst; reflexivity.
Qed.

Lemma trimStart_startTrimmed (s : jsstring) : startTrimmed (trimStart s).
Proof.
  induction s as [|c s IH]; simpl; [exact I|].
  destruct (isWhiteSpace c) eqn:E; [exact IH | exact E].
Qed.

Lemma trimStart_fixed (s : jsstring) : startTrimmed s -> trimStart s = s.
Proof.
  destruct s as [|c s]; simpl; [reflexivity|].
  intros ->. reflexivity.
Qed.

Lemma trimEnd_startTrimmed (s : jsstring) :
  startTrimmed s -> startTrimmed (trimEnd s).
Proof.
  destruct s as [|c s]; simpl; [exact (fun H => H)|].
  intros H. destruct (trimEnd s); simpl; [rewrite H|]; exact H.
Qed.

Lemma trimEnd_idem (s : jsstring) : trimEnd (trimEnd s) = trimEnd s.
Proof.
  induction s as [|c s IH]; simpl; [reflexivity|].
  destruct (trimEnd s) as [|d t] eqn:E.
  - destruct (isWhiteSpace c) eqn:W; simpl; [reflexivity|].
    rewrite W. reflexivity.
  - change (trimEnd (c :: d :: t)) with
      (match trimEnd (d :: t) with
       | [] => if isWhiteSpace c then [] else [c]
       | u => c :: u
       end).
    rewrite IH. reflexivity.
Qed.

Lemma trim_startTrimmed (s : jsstring) : startTrimmed (trim s).
Proof. apply trimEnd_startTrimmed, trimStart_startTrimmed. Qed.

Lemma trim_idem (s : jsstring) : trim (trim s) = trim s.
Proof.
  unfold trim at 1.
  rewrite (trimStart_fixed _ (trim_startTrimmed s)).
  unfold trim. apply trimEnd_idem.
Qed.

Lemma trimStart_length (s : jsstring) :
  List.length (trimStart s) <= List.length s.
Proof.
  induction s as [|c s IH]; simpl; [lia|].
  destruct (isWhiteSpace c); simpl; lia.
Qed.

Lemma trimEnd_length (s : jsstring) :
  List.length (trimEnd s) <= List.length s.
Proof.
  induction s as [|c s IH]; simpl; [lia|].
  destruct (trimEnd s); [destruct (isWhiteSpace c)|]; simpl in *; lia.
Qed.

Lemma trim_length (s : jsstring) : List.length (trim s) <= List.length s.
Proof.
  unfold trim. pose proof (trimEnd_length (trimStart s)).
  pose proof (trimStart_length s). lia.
Qed.

Lemma split_not_nil (sep : jschar) (s : jsstring) : split sep s <> [].
Proof.
  induction s as [|c s IH]; simpl; [discriminate|].
  destruct (N.eqb c sep); [discriminate|].
  destruct (split sep s); discriminate.
Qed.

Lemma join_split (sep : jschar) (s : jsstring) :
  join [sep] (split sep s) = s.
Proof.
  induction s as [|c s IH]; simpl; [reflexivity|].
  pose proof (split_not_nil sep s) as Hn.
  destruct (N.eqb_spec c sep) as [->|Hne];
    destruct (split sep s) as [|p ps]; try congruence.
  - simpl in *. rewrite IH. reflexivity.
  - destruct ps as [|q ps]; simpl in *; rewrite <- IH; reflexivity.
Qed.

Lemma join_cons (sep p q : jsstring) (ps : list jsstring) :
  join sep (p :: q :: ps) = p ++ sep ++ join sep (q :: ps).
Proof. reflexivity. Qed.

Lemma join_tail_shorter (parts : list jsstring) :
  join [nl] parts <> [] ->
  List.length (join [nl] (sliceFrom1 parts)) < List.length (join [nl] parts).
Proof.
  destruct parts as [|p [|q ps]]; intros H.
  - simpl in H. congruence.
  - simpl in *. destruct p; [congruence|simpl; lia].
  - rewrite join_cons. unfold sliceFrom1, tl. rewrite !length_app. simpl. lia.
Qed.

Lemma join_init_shorter (parts : list jsstring) :
  join [nl] parts <> [] ->
  List.length (join [nl] (sliceButLast parts)) < List.length (join [nl] parts).
Proof.
  unfold sliceButLast.
  induction parts as [|p parts IH]; intros H.
  - simpl in H. congruence.
  - destruct parts as [|q ps].
    + simpl in *. destruct p; [congruence|simpl; lia].
    + rewrite join_cons.
      change (removelast (p :: q :: ps)) with (p :: removelast (q :: ps)).
      destruct (removelast (q :: ps)) as [|x xs] eqn:E.
      * simpl. rewrite !length_app. simpl. lia.
      * rewrite join_cons, !length_app.
        assert (join [nl] (q :: ps) <> []) as Hq.
        { destruct ps as [|y ys]; [discriminate E|].
          rewrite join_cons. destruct q; discriminate. }
        specialize (IH Hq). lia.
Qed.

Lemma startsWith_app (p s : jsstring) : startsWith p (p ++ s) = true.
Proof.
  induction p as [|a p IH]; simpl; [reflexivity|].
  rewrite N.eqb_refl. exact IH.
Qed.

Lemma includes_app_r (p a s : jsstring) :
  includes p s = true -> includes p (a ++ s) = true.
Proof.
  intros H. induction a as [|x a IH]; simpl; [exact H|].
  rewrite IH. apply orb_true_r.
Qed.

Lemma includes_middle (p a b : jsstring) : includes p (a ++ p ++ b) = true.
Proof.
  apply includes_app_r. destruct p as [|x p]; [destruct b; reflexivity|].
  simpl. rewrite N.eqb_refl, startsWith_app. reflexivity.
Qed.

Lemma includes_app_l (p a b : jsstring) :
  includes p a = true -> includes p (a ++ b) = true.
Proof.
  assert (forall q x y, startsWith q x = true -> startsWith q (x ++ y) = true)
    as Hs.
  { induction q as [|c q IH]; intros [|d x] y; simpl; try congruence.
    intros H. apply andb_prop in H. destruct H as [-> H]. simpl. eauto. }
  induction a as [|c a IH]; intros H.
  - destruct p; [destruct b; reflexivity|discriminate].
  - change (startsWith p (c :: a) || includes p a = true) in H.
    change (startsWith p ((c :: a) ++ b) || includes p (a ++ b) = true).
    apply orb_prop in H. destruct H as [H|H].
    + rewrite (Hs _ _ _ H). reflexivity.
    + rewrite (IH H). apply orb_true_r.
Qed.

Lemma includes_infix (p a b s : jsstring) :
  s = a ++ p ++ b -> includes p s = true.
Proof. intros ->. apply includes_middle. Qed.

End StringFacts.

(** ** Facts about traces *)

Section TraceFacts.

Lemma attempts_app (a b : list Entry) :
  attempts (a ++ b) = attempts a ++ attempts b.
Proof.
  induction a as [|[e o] a IH]; simpl; [reflexivity|].
  destruct e; simpl; rewrite IH; reflexivity.
Qed.

Lemma broadcasts_app (a b : list Entry) :
  broadcasts (a ++ b) = broadcasts a ++ broadcasts b.
Proof.
  induction a as [|[e o] a IH]; simpl; [reflexivity|].
  destruct e; simpl; try (rewrite IH; reflexivity).
  destruct o; simpl; rewrite IH; reflexivity.
Qed.

Lemma streaming_broadcasts (d : list Entry) :
  forallb streamingEntry d = true ->
  forall s, In s (broadcasts d) -> s = loading.
Proof.
  induction d as [|[e o] d IH]; simpl; [tauto|].
  intros H s. apply andb_prop in H. destruct H as [He Hd].
  destruct e; simpl; try (apply IH; exact Hd).
  destruct o; simpl; [apply IH; exact Hd|].
  intros [<-|Hs]; [|apply IH; assumption].
  unfold streamingEntry in He. simpl in He.
  destruct (approvalStateOf t); try discriminate. reflexivity.
Qed.

Lemma streaming_attempts (d : list Entry) :
  forallb streamingEntry d = true ->
  forall s, In s (attempts d) -> s = loading.
Proof.
  induction d as [|[e o] d IH]; simpl; [tauto|].
  intros H s. apply andb_prop in H. destruct H as [He Hd].
  destruct e; simpl; try (apply IH; exact Hd).
  intros [<-|Hs]; [|apply IH; assumption].
  unfold streamingEntry in He. simpl in He.
  destruct (approvalStateOf t); try discriminate. reflexivity.
Qed.

Lemma quiet_broadcasts (d : list Entry) :
  attempts d = [] -> broadcasts d = [].
Proof.
  induction d as [|[e o] d IH]; simpl; [reflexivity|].
  destruct e; simpl; try exact IH. discriminate.
Qed.

Lemma broadcasts_attempts (d : list Entry) (s : ApprovalState) :
  In s (broadcasts d) -> In s (attempts d).
Proof.
  induction d as [|[e o] d IH]; simpl; [tauto|].
  destruct e; simpl; try exact IH.
  destruct o; simpl; tauto.
Qed.

Lemma lastOf_snoc {A : Type} (l : list A) (x : A) : lastOf (l ++ [x]) = Some x.
Proof. unfold lastOf. rewrite rev_app_distr. reflexivity. Qed.

Lemma lastOf_app {A : Type} (l m : list A) (x : A) :
  lastOf m = Some x -> lastOf (l ++ m) = Some x.
Proof.
  unfold lastOf. rewrite rev_app_distr.
  destruct (rev m); [discriminate|]. simpl. auto.
Qed.

End TraceFacts.

(** ** Properties of [preprocessContent] *)

Section Preprocessing.

(** The three [replace] calls have the character they insert as their
    pattern, so the function is the two strips after the trim. *)
Lemma preprocessContent_unfold (c : jsstring) :
  preprocessContent c = stripTrailingFence (stripLeadingFence (trim c)).
Proof. unfold preprocessContent. rewrite !replaceAll_self. reflexivity. Qed.

Lemma preprocessContent_trimmed (c : jsstring) :
  trim (preprocessContent c) = preprocessContent c.
Proof.
  rewrite preprocessContent_unfold.
  unfold stripTrailingFence, stripLeadingFence.
  destruct (startsWith fence (trim c));
    match goal with |- context [endsWith fence ?x] =>
      destruct (endsWith fence x) end;
    apply trim_idem.
Qed.

Lemma stripLeadingFence_length (s : jsstring) :
  List.length (stripLeadingFence s) <= List.length s /\
  (startsWith fence s = true ->
   List.length (stripLeadingFence s) < List.length s).
Proof.
  unfold stripLeadingFence. destruct (startsWith fence s) eqn:E.
  - assert (s <> []) as Hs by (intros ->; discriminate E).
    pose proof (join_split nl s) as Hj.
    assert (join [nl] (split nl s) <> []) as Hn by congruence.
    pose proof (join_tail_shorter _ Hn) as Hlt. rewrite Hj in Hlt.
    pose proof (trim_length (join [nl] (sliceFrom1 (split nl s)))).
    split; [|intros _]; lia.
  - split; [lia|discriminate].
Qed.

Lemma stripTrailingFence_length (s : jsstring) :
  List.length (stripTrailingFence s) <= List.length s /\
  (endsWith fence s = true ->
   List.length (stripTrailingFence s) < List.length s).
Proof.
  unfold stripTrailingFence. destruct (endsWith fence s) eqn:E.
  - assert (s <> []) as Hs by (intros ->; discriminate E).
    pose proof (join_split nl s) as Hj.
    assert (join [nl] (split nl s) <> []) as Hn by congruence.
    pose proof (join_init_shorter _ Hn) as Hlt. rewrite Hj in Hlt.
    pose proof (trim_length (join [nl] (sliceButLast (split nl s)))).
    split; [|intros _]; lia.
  - split; [lia|discriminate].
Qed.

End Preprocessing.

(** C3, evaluated on the code: an over-escaped comparison keeps its
    entity.  The claim asks for the unescaped text. *)
Example preprocessContent_keeps_entities :
  preprocessContent (js " a &lt; b ") = js "a &lt; b" /\
  preprocessContent (js " a &lt; b ") <> js "a < b".
Proof. split; vm_compute; [reflexivity|discriminate]. Qed.

(** C8 as stated fails: under two opening fences the first pass removes one
    and the second pass removes the other. *)
Example preprocessContent_not_idempotent :
  preprocessContent (preprocessContent (js "```
```
foo"))
  <> preprocessContent (js "```
```
foo").
Proof. vm_compute. discriminate. Qed.

(** C8, amended: when the preprocessed content no longer begins or ends with
    a fence, preprocessing it again changes nothing. *)
Theorem preprocessContent_idempotent_once_unfenced (c : jsstring) :
  startsWith fence (preprocessContent c) = false ->
  endsWith fence (preprocessContent c) = false ->
  preprocessContent (preprocessContent c) = preprocessContent c.
Proof.
  intros Hs He.
  rewrite (preprocessContent_unfold (preprocessContent c)).
  rewrite preprocessContent_trimmed.
  unfold stripLeadingFence. rewrite Hs.
  unfold stripTrailingFence. rewrite He. reflexivity.
Qed.

Lemma preprocessContent_idempotent_once_unfenced_witness :
  preprocessContent (preprocessContent (js "```js
let x = 1
```"))
  = preprocessContent (js "```js
let x = 1
```").
Proof.
  apply preprocessContent_idempotent_once_unfenced; vm_compute; reflexivity.
Defined.

(** The condition of the amended C8 is also necessary: a fence that is left
    at either end is removed, with its line, by a second pass. *)
Lemma preprocessContent_strips_remaining_fence (c : jsstring) :
  startsWith fence (preprocessContent c) = true \/
  endsWith fence (preprocessContent c) = true ->
  preprocessContent (preprocessContent c) <> preprocessContent c.
Proof.
  intros H Heq.
  rewrite (preprocessContent_unfold (preprocessContent c)) in Heq.
  rewrite preprocessContent_trimmed in Heq.
  set (r := preprocessContent c) in *.
  pose proof (stripLeadingFence_length r) as [Hl1 Hl2].
  pose proof (stripTrailingFence_length (stripLeadingFence r)) as [Ht1 Ht2].
  assert (List.length (stripTrailingFence (stripLeadingFence r)) < List.length r);
    [|rewrite Heq in *; lia].
  destruct (startsWith fence r) eqn:Es; [specialize (Hl2 eq_refl); lia|].
  destruct H as [H|H]; [discriminate|].
  assert (stripLeadingFence r = r) as Hid
    by (unfold stripLeadingFence; rewrite Es; reflexivity).
  rewrite Hid in *. specialize (Ht2 H). lia.
Qed.

(** ** The command engine while it streams *)

Module CommandStreaming.

Import ExecuteCommandTool CommandSpec.

Lemma bufferOf_app (a b : list ProcessEvent) :
  bufferOf (a ++ b) = bufferOf a ++ bufferOf b.
Proof.
  induction a as [|ev a IH]; simpl; [reflexivity|].
  destruct ev; simpl; rewrite IH; try reflexivity.
  rewrite app_assoc. reflexivity.
Qed.

Lemma Handled_quiet (evs : list ProcessEvent) (d : list Entry) :
  forallb streamingEntry d = true -> attempts d = [] -> Handled evs d.
Proof. intros F A. split; [exact F|intros _; exact A]. Qed.

Lemma Handled_loud (evs : list ProcessEvent) (d : list Entry) :
  forallb streamingEntry d = true -> bufferOf evs <> [] -> Handled evs d.
Proof. intros F N. split; [exact F|intros E; contradiction]. Qed.

Lemma Handled_app (e1 e2 : list ProcessEvent) (d1 d2 : list Entry) :
  Handled e1 d1 -> Handled e2 d2 -> Handled (e1 ++ e2) (d1 ++ d2).
Proof.
  intros [F1 Q1] [F2 Q2]. split.
  - rewrite forallb_app, F1, F2. reflexivity.
  - rewrite bufferOf_app. intros E. apply app_eq_nil in E.
    destruct E as [E1 E2]. rewrite attempts_app, (Q1 E1), (Q2 E2).
    reflexivity.
Qed.

Lemma Extends_refl (evs : list ProcessEvent) (w : World) : Extends evs w w.
Proof.
  exists []. rewrite app_nil_r. split; [reflexivity|].
  apply Handled_quiet; reflexivity.
Qed.

Lemma Extends_trans (e1 e2 : list ProcessEvent) (a b c : World) :
  Extends e1 a b -> Extends e2 b c -> Extends (e1 ++ e2) a c.
Proof.
  intros [d1 [E1 H1]] [d2 [E2 H2]]. exists (d1 ++ d2).
  rewrite E2, E1, app_assoc. split; [reflexivity|].
  apply Handled_app; assumption.
Qed.

Lemma Extends_same (e1 e2 : list ProcessEvent) (w w' : World) :
  bufferOf e1 = bufferOf e2 -> Extends e1 w w' -> Extends e2 w w'.
Proof.
  intros E [d [T [F Q]]]. exists d. split; [exact T|].
  split; [exact F|]. rewrite <- E. exact Q.
Qed.

Lemma Extends_line (evs : list ProcessEvent) (w : World) (line : string)
    (e : option Exn) :
  Extends evs w (record (EConsole line e, None) w).
Proof.
  exists [(EConsole line e, None)]. split; [reflexivity|].
  apply Handled_quiet; reflexivity.
Qed.

Section Handlers.

Variable env : Env.
Variable command : jsstring.

(** A handler never throws into the engine, appends its line to the
    buffer and touches the channel with [loading] broadcasts only, and
    only for a line that is not empty. *)
Lemma dispatch_spec (ev : ProcessEvent) (st : Local) (w : World) :
  Inv st ->
  exists st' w',
    dispatch env command ev st w = (Returned st', w') /\
    Inv st' /\
    output st' = output st ++ bufferOf [ev] /\
    completed st' = completed st || isCompleted ev /\
    Extends [ev] w w'.
Proof.
  intros [Harm Hexit]. destruct ev as [l| |e|]; simpl.
  - unfold onLine. destruct (isEmpty l) eqn:El.
    + exists st, w. simpl. rewrite !app_nil_r, orb_false_r.
      repeat split; auto using Extends_refl.
    + simpl. unfold bind, tryCatch, call, ret, emit.
      assert (bufferOf [Line l] <> []) as Hl
        by (simpl; rewrite El; destruct l; discriminate).
      destruct (faults env (clock w)) eqn:Ef; simpl;
        eexists; eexists; (split; [reflexivity|]); simpl;
        rewrite ?El, ?app_nil_r, ?orb_false_r; repeat split; auto;
        (eexists; split; [simpl; rewrite <- ?app_assoc; reflexivity|]);
        apply Handled_loud; try reflexivity; exact Hl.
  - unfold onCompleted. destruct (completedArmed st) eqn:Ea.
    + eexists; eexists; (split; [reflexivity|]); simpl.
      rewrite app_nil_r, orb_true_r. repeat split; apply Extends_refl.
    + assert (completed st = true) as Hc
        by (destruct (completed st); [reflexivity|discriminate]).
      exists st, w. simpl. rewrite app_nil_r, orb_true_r.
      split; [reflexivity|]. split; [split; [|exact Hexit]|].
      * rewrite Ea, Hc. reflexivity.
      * repeat split; auto using Extends_refl.
  - unfold onError, bind, emit, ret.
    eexists; eexists; (split; [reflexivity|]); simpl.
    rewrite app_nil_r, orb_false_r. repeat split; auto.
    apply Extends_line.
  - unfold onNoShellIntegration. destruct (noShellArmed st).
    + unfold bind, tryCatch, call, throw, emit, ret.
      destruct (faults env (clock w)); simpl;
        eexists; eexists; (split; [reflexivity|]); simpl;
        rewrite app_nil_r, orb_false_r; repeat split; auto;
        (eexists; split; [simpl; rewrite <- ?app_assoc; reflexivity|]);
        apply Handled_quiet; reflexivity.
    + exists st, w. simpl. rewrite app_nil_r, orb_false_r.
      repeat split; auto using Extends_refl.
Qed.

Lemma deliver_spec (evs : list ProcessEvent) :
  forall (st : Local) (w : World),
    Inv st ->
    exists st' w',
      deliver env command evs st w = (Returned st', w') /\
      Inv st' /\
      output st' = output st ++ bufferOf evs /\
      completed st' = completed st || hasCompleted evs /\
      Extends evs w w'.
Proof.
  induction evs as [|ev evs IH]; intros st w HI.
  - exists st, w. simpl. rewrite app_nil_r, orb_false_r.
    repeat split; auto using Extends_refl; apply HI.
  - destruct (dispatch_spec ev st w HI) as (st1 & w1 & E1 & I1 & O1 & C1 & X1).
    destruct (IH st1 w1 I1) as (st2 & w2 & E2 & I2 & O2 & C2 & X2).
    exists st2, w2. simpl deliver. unfold bind at 1. rewrite E1.
    split; [exact E2|]. split; [exact I2|].
    split; [|split;
             [|exact (Extends_trans [ev] evs _ _ _ X1 X2)]].
    + rewrite O2, O1. change (ev :: evs) with ([ev] ++ evs).
      rewrite bufferOf_app, app_assoc. reflexivity.
    + rewrite C2, C1. simpl. rewrite orb_assoc. reflexivity.
Qed.

Lemma race_spec (tl : list Tick) :
  forall (st : Local) (w : World),
    Inv st -> completed st = false ->
    exists st' w',
      race env command tl st w = (Returned (st', afterRace tl), w') /\
      Inv st' /\
      output st' = output st ++ bufferOf (duringRace tl) /\
      completed st' = hasCompleted (duringRace tl) /\
      Extends (duringRace tl) w w'.
Proof.
  induction tl as [|t tl IH]; intros st w HI HC.
  - eexists; eexists. split; [reflexivity|]. simpl.
    rewrite app_nil_r. repeat split; try apply HI; auto.
    apply Extends_line.
  - destruct t as [ev|].
    + destruct (dispatch_spec ev st w HI) as (st1 & w1 & E1 & I1 & O1 & C1 & X1).
      simpl race. unfold bind at 1. rewrite E1.
      rewrite HC in C1. simpl in C1.
      destruct ev as [l| |e|]; simpl in C1; rewrite C1.
      2:{ exists st1, w1. simpl. repeat split; auto; apply I1. }
      all: destruct (IH st1 w1 I1 C1) as (st2 & w2 & E2 & I2 & O2 & C2 & X2);
        exists st2, w2; (split; [exact E2|]); (split; [exact I2|]);
        (split; [|split; [exact C2
                         |exact (Extends_trans [_] _ _ _ _ X1 X2)]]);
        rewrite O2, O1; simpl; rewrite ?app_nil_r, <- ?app_assoc; reflexivity.
    + eexists; eexists. split; [reflexivity|]. simpl.
      rewrite app_nil_r. repeat split; try apply HI; auto.
      apply Extends_line.
Qed.

Lemma flush_spec (tl : list Tick) :
  forall (st : Local) (w : World),
    Inv st ->
    exists st' w',
      flush env command tl st w = (Returned (st', afterGrace tl), w') /\
      Inv st' /\
      output st' = output st ++ bufferOf (duringGrace tl) /\
      completed st' = completed st || hasCompleted (duringGrace tl) /\
      Extends (duringGrace tl) w w'.
Proof.
  induction tl as [|t tl IH]; intros st w HI.
  - exists st, w. simpl. rewrite app_nil_r, orb_false_r.
    repeat split; auto using Extends_refl; apply HI.
  - destruct t as [ev|].
    + destruct (dispatch_spec ev st w HI) as (st1 & w1 & E1 & I1 & O1 & C1 & X1).
      destruct (IH st1 w1 I1) as (st2 & w2 & E2 & I2 & O2 & C2 & X2).
      exists st2, w2. simpl flush. unfold bind at 1. rewrite E1.
      split; [exact E2|]. split; [exact I2|].
      split; [|split; [|exact (Extends_trans [ev] _ _ _ _ X1 X2)]].
      * rewrite O2, O1. change (duringGrace (Emit ev :: tl))
          with ([ev] ++ duringGrace tl).
        rewrite bufferOf_app, app_assoc. reflexivity.
      * rewrite C2, C1. simpl. rewrite orb_assoc. reflexivity.
    + exists st, w. simpl. rewrite app_nil_r, orb_false_r.
      repeat split; auto using Extends_refl; apply HI.
Qed.

End Handlers.

End CommandStreaming.

(** ** Properties of the file-write engine *)

Module WriteFileFacts.

Import WriteFileTool WriteSpec.

(** Symbolic execution of the engine from the initial world. *)
Ltac exec :=
  cbv [run execute processFileWrite tryProcessFileWrite showChangesInDiffView
       checkFileExists saveChanges ask msg
       bind ret throw tryCatch finally call fire emit record tick
       setProcessingFinalContent setEditing initialWorld
       clock trace isProcessingFinalContent isEditing orElse fst snd
       negb responseIs andb orb].

Ltac split_faults env :=
  repeat (match goal with
          | |- context [faults env ?n] => destruct (faults env n)
          end; exec).

Ltac no_faults H := exec; repeat (rewrite !H; exec).

(** Whatever the collaborators do, a write that is not accepted never
    reaches [saveChanges]. *)
Lemma rejected_never_saves (env : Env) (path content : option jsstring) :
  response (askAnswer env) <> yesButtonTapped ->
  existsb isCommit (calls (trace (snd (run env path content)))) = false.
Proof.
  intros Hr. exec.
  destruct (isEmpty _); [reflexivity|]. destruct (isEmpty _); [reflexivity|].
  destruct (isDiffViewOpen env); exec;
    split_faults env; try reflexivity;
    destruct (response (askAnswer env)); try congruence; exec;
    split_faults env; reflexivity.
Qed.

(** C6 as stated fails: when [revertChanges] throws, the [catch] of
    [processFileWrite] returns the error text; no [rejected] broadcast is
    sent and the cancellation phrase is not returned. *)
Example failed_revert_is_not_broadcast :
  let env :=
    {| faults :=
         fun k => if Nat.eqb k 3 then Some (ErrorOf (js "locked")) else None;
       stringOf := fun _ => js "error";
       toPosix := fun p => p;
       getReadablePath := fun p => p;
       ts := 1%N;
       askAnswer :=
         {| response := noButtonTapped; text := None; images := None |};
       isDiffViewOpen := false;
       fileExistsAtPath := true;
       userEdits := None |} in
  let out := run env (Some (js "a.txt")) (Some (js "hello")) in
  fst out = Returned (FormatToolResponse
                        (js "Write to File Error With:locked") None) /\
  In (EDiffRevert, Some (ErrorOf (js "locked"))) (trace (snd out)) /\
  attempts (trace (snd out)) = [].
Proof. vm_compute. repeat split. tauto. Qed.

(** C6, amended: a file write whose approval response is not
    [yesButtonTapped] never saves the diff session, whatever the
    collaborators do.  When it has a path and a content and the
    collaborator calls return normally, it reverts the diff session,
    broadcasts [rejected] after the revert and before returning;
    [noButtonTapped] returns the fixed phrase, any other response returns
    the operator's text, or the phrase when there is no text, together with
    the images. *)
Theorem rejected_write_reverts_and_reports (env : Env) :
  response (askAnswer env) <> yesButtonTapped ->
  (forall path content : option jsstring,
     existsb isCommit (calls (trace (snd (run env path content)))) = false) /\
  (forall path content : jsstring,
     isEmpty path = false -> isEmpty content = false -> noFaults env ->
     exists w,
       run env (Some path) (Some content)
         = (Returned
              match response (askAnswer env) with
              | noButtonTapped =>
                  FormatToolResponse (js "Write operation cancelled by user.") None
              | _ =>
                  FormatToolResponse
                    (orElse (text (askAnswer env))
                       (js "Write operation cancelled by user."))
                    (images (askAnswer env))
              end, w) /\
       calls (trace w)
         = preview env path content
           ++ [EConsole "Asking for user approval" None;
               EAsk (msg env content path pending None);
               EDiffRevert;
               EUpdateAsk (msg env content path rejected (text (askAnswer env)))]
           ++ rejectionNotice (askAnswer env) /\
       broadcasts (trace w) = [rejected] /\
       existsb isCommit (calls (trace w)) = false).
Proof.
  intros Hr. split;
    [intros path content; exact (rejected_never_saves env path content Hr)|].
  intros path content Hp Hc Hf.
  pose proof (rejected_never_saves env (Some path) (Some content) Hr) as Hs.
  revert Hs. unfold noFaults in Hf. unfold rejectionNotice, preview.
  exec. rewrite Hp, Hc.
  destruct (isDiffViewOpen env); no_faults Hf;
    destruct (response (askAnswer env)); try congruence; no_faults Hf;
    intros Hs; eexists; repeat split.
Qed.

Lemma rejected_write_reverts_and_reports_witness :
  let a := {| response := messageResponse;
              text := Some (js "wrong approach"); images := None |} in
  exists w,
    run (sampleEnv a None) (Some (js "a.txt")) (Some (js "hello"))
      = (Returned (FormatToolResponse (js "wrong approach") None), w) /\
    calls (trace w)
      = [EDiffOpen (js "a.txt"); EDiffUpdate (js "hello") true;
         EConsole "Asking for user approval" None;
         EAsk (WriteToFileMsg (js "hello") (js "a.txt") pending None 1);
         EDiffRevert;
         EUpdateAsk (WriteToFileMsg (js "hello") (js "a.txt") rejected
                       (Some (js "wrong approach")) 1);
         ESay say_user_feedback (SayText (js "wrong approach")) None] /\
    broadcasts (trace w) = [rejected] /\
    existsb isCommit (calls (trace w)) = false.
Proof.
  intros a.
  assert (response (askAnswer (sampleEnv a None)) <> yesButtonTapped)
    as Hr by discriminate.
  apply (proj2 (rejected_write_reverts_and_reports (sampleEnv a None) Hr)
           (js "a.txt") (js "hello"));
    [reflexivity | reflexivity | intros k; reflexivity].
Defined.

(** C9 as stated fails: when the [user_feedback_diff] notification
    throws, the file is saved and [approved] is broadcast, but the result is
    the error text, which quotes no edit. *)
Example failed_notification_hides_the_edits :
  let env :=
    {| faults :=
         fun k => if Nat.eqb k 6 then Some (ErrorOf (js "offline")) else None;
       stringOf := fun _ => js "error";
       toPosix := fun p => p;
       getReadablePath := fun p => p;
       ts := 1%N;
       askAnswer :=
         {| response := yesButtonTapped; text := None; images := None |};
       isDiffViewOpen := false;
       fileExistsAtPath := true;
       userEdits := Some (js "x = 2") |} in
  let out := run env (Some (js "a.txt")) (Some (js "x = 1")) in
  fst out = Returned (FormatToolResponse
                        (js "Write to File Error With:offline") None) /\
  In (EDiffSave, None) (trace (snd out)) /\
  broadcasts (trace (snd out)) = [approved] /\
  includes (js "x = 2") (js "Write to File Error With:offline") = false.
Proof. vm_compute. repeat split. tauto. Qed.

(** C9, amended: an approved file write whose collaborator calls return
    normally and whose [saveChanges] reports edits notifies
    [user_feedback_diff] with [editedExistingFile] or [newFileCreated],
    and returns a text that quotes the edits and says not to re-write the
    file; without edits it returns a text that says the content was saved
    and not to read the file again. *)
Theorem approved_write_reports_user_edits
    (env : Env) (path content : jsstring) :
  response (askAnswer env) = yesButtonTapped ->
  isEmpty path = false -> isEmpty content = false -> noFaults env ->
  exists body w,
    run env (Some path) (Some content)
      = (Returned (FormatToolResponse body None), w) /\
    In EDiffSave (calls (trace w)) /\
    broadcasts (trace w) = [approved] /\
    match userEdits env with
    | Some (c :: edits) =>
        body = js "The user made the following updates to your content:

" ++ (c :: edits) ++ js "

The updated content has been successfully saved to " ++ toPosix env path
               ++ js ". (Note: you don't need to re-write the file with these changes.)" /\
        includes (c :: edits) body = true /\
        includes (js "you don't need to re-write the file with these changes")
          body = true /\
        lastOf (calls (trace w))
          = Some (ESay say_user_feedback_diff
                    (SayDiff (if fileExistsAtPath env
                              then editedExistingFile else newFileCreated)
                       (getReadablePath env path) (c :: edits))
                    None)
    | _ =>
        body = js "The content was successfully saved to " ++ toPosix env path
               ++ js ". Do not read the file again unless you forgot the content." /\
        includes (js "The content was successfully saved") body = true /\
        includes (js "Do not read the file again") body = true /\
        forall b i, ~ In (ESay say_user_feedback_diff b i) (calls (trace w))
    end.
Proof.
  intros Hr Hp Hc Hf. unfold noFaults in Hf.
  assert (forall edits,
    includes (js "you don't need to re-write the file with these changes")
      (savedWithEdits env edits path) = true) as Hnote.
  { intros edits. unfold savedWithEdits.
    do 4 apply includes_app_r. vm_compute. reflexivity. }
  assert (includes (js "The content was successfully saved")
            (savedPlain env path) = true) as Hsaved.
  { unfold savedPlain. apply includes_app_l. vm_compute. reflexivity. }
  assert (includes (js "Do not read the file again")
            (savedPlain env path) = true) as Hread.
  { unfold savedPlain. do 2 apply includes_app_r. vm_compute. reflexivity. }
  pose proof (fun edits => includes_middle edits
    (js "The user made the following updates to your content:

")
    (js "

The updated content has been successfully saved to " ++ toPosix env path
     ++ js ". (Note: you don't need to re-write the file with these changes.)"))
    as Hquote.
  unfold savedWithEdits, savedPlain in *.
  exec. rewrite Hp, Hc.
  destruct (isDiffViewOpen env); no_faults Hf; rewrite Hr; no_faults Hf;
    destruct (userEdits env) as [[|c edits]|]; cbv [isEmpty]; no_faults Hf;
    eexists; eexists; (split; [reflexivity|]);
    (split; [simpl; tauto|]); (split; [reflexivity|]);
    repeat split; auto; try apply Hnote;
    try (intros b i H; simpl in H; intuition discriminate).
Qed.

Lemma approved_write_reports_user_edits_witness :
  let a := {| response := yesButtonTapped; text := None; images := None |} in
  exists body w,
    run (sampleEnv a (Some (js "+x"))) (Some (js "a.txt")) (Some (js "hello"))
      = (Returned (FormatToolResponse body None), w) /\
    In EDiffSave (calls (trace w)) /\
    broadcasts (trace w) = [approved] /\
    body = js "The user made the following updates to your content:

+x

The updated content has been successfully saved to a.txt. (Note: you don't need to re-write the file with these changes.)" /\
    includes (js "+x") body = true /\
    includes (js "you don't need to re-write the file with these changes")
      body = true /\
    lastOf (calls (trace w))
      = Some (ESay say_user_feedback_diff
                (SayDiff editedExistingFile (js "a.txt") (js "+x")) None).
Proof.
  intros a.
  apply (approved_write_reports_user_edits (sampleEnv a (Some (js "+x")))
           (js "a.txt") (js "hello"));
    [reflexivity | reflexivity | reflexivity | intros k; reflexivity].
Defined.

Lemma run_speaksOf (env : Env) (path content : jsstring) :
  Forall (speaksOf content)
    (calls (trace (snd (run env (Some path) (Some content))))).
Proof.
  exec.
  destruct (isEmpty path); [repeat constructor|].
  destruct (isEmpty content); [repeat constructor|].
  destruct (isDiffViewOpen env); exec; split_faults env;
    try (repeat constructor; fail);
    destruct (response (askAnswer env)); exec; split_faults env;
    try (repeat constructor; fail);
    destruct (userEdits env) as [[|c edits]|]; cbv [isEmpty]; exec;
    split_faults env; repeat constructor.
Qed.

(** C10: the approval prompt and every later broadcast carry the caller's
    content string unchanged, the diff session is given the preprocessed
    string, and that is what is in the session when it is saved; when
    preprocessing changes the string, what the prompt shows is not what
    the session holds. *)
Theorem prompt_shows_original_session_holds_preprocessed
    (env : Env) (path content : jsstring) :
  let tr := calls (trace (snd (run env (Some path) (Some content)))) in
  (forall t, In (EAsk t) tr \/ In (EUpdateAsk t) tr ->
             contentOf t = Some content) /\
  (forall c b, In (EDiffUpdate c b) tr ->
               c = preprocessContent content /\ b = true) /\
  (isEmpty path = false -> isEmpty content = false -> noFaults env ->
   exists rest,
     tr = preview env path content
          ++ [EConsole "Asking for user approval" None;
              EAsk (msg env content path pending None)] ++ rest /\
     (response (askAnswer env) = yesButtonTapped ->
      rest = [EFileExists path; EDiffSave;
              EUpdateAsk (msg env content path approved None)]
      \/ exists notice,
           rest = [EFileExists path; EDiffSave;
                   EUpdateAsk (msg env content path approved None);
                   notice])) /\
  (preprocessContent content <> content ->
   forall t c b, In (EAsk t) tr \/ In (EUpdateAsk t) tr ->
                 In (EDiffUpdate c b) tr -> contentOf t <> Some c).
Proof.
  intros tr.
  pose proof (run_speaksOf env path content) as Hall.
  fold tr in Hall. rewrite Forall_forall in Hall.
  assert (forall t, In (EAsk t) tr \/ In (EUpdateAsk t) tr ->
                    contentOf t = Some content) as Hshow
    by (intros t [H|H]; exact (Hall _ H)).
  assert (forall c b, In (EDiffUpdate c b) tr ->
                      c = preprocessContent content /\ b = true) as Hpush
    by (intros c b H; exact (Hall _ H)).
  split; [exact Hshow|]. split; [exact Hpush|]. split.
  - clear Hall Hshow Hpush. subst tr.
    intros Hp Hc Hf. unfold noFaults in Hf. unfold preview.
    exec. rewrite Hp, Hc.
    destruct (isDiffViewOpen env); no_faults Hf;
      destruct (response (askAnswer env)); no_faults Hf;
      try (eexists; split; [reflexivity|]; intros; discriminate);
      destruct (userEdits env) as [[|c edits]|]; cbv [isEmpty]; no_faults Hf;
      eexists; (split; [reflexivity|]); intros _;
      solve [left; reflexivity | right; eexists; reflexivity].
  - intros Hne t c b Ht Hd. rewrite (Hshow t Ht).
    destruct (Hpush c b Hd) as [-> _]. congruence.
Qed.

Lemma prompt_shows_original_session_holds_preprocessed_witness :
  let a := {| response := yesButtonTapped; text := None; images := None |} in
  let fenced := js "```
x
```" in
  let tr := calls (trace (snd (run (sampleEnv a None)
                                 (Some (js "a.txt")) (Some fenced)))) in
  In (EAsk (WriteToFileMsg fenced (js "a.txt") pending None 1)) tr /\
  In (EDiffUpdate (js "x") true) tr /\
  forall t c b, In (EAsk t) tr \/ In (EUpdateAsk t) tr ->
                In (EDiffUpdate c b) tr -> contentOf t <> Some c.
Proof.
  intros a fenced tr.
  split; [vm_compute; tauto|]. split; [vm_compute; tauto|].
  apply (prompt_shows_original_session_holds_preprocessed
           (sampleEnv a None) (js "a.txt") fenced).
  vm_compute. discriminate.
Defined.

End WriteFileFacts.

(** ** Properties of the command engine *)

Module CommandFacts.

Import ExecuteCommandTool CommandSpec CommandStreaming.

Ltac exec :=
  cbv [run execute executeShellTerminal ask runCommand msg
       bind ret throw tryCatch call fire emit record tick initialWorld
       clock trace isProcessingFinalContent isEditing orElse fst snd
       negb responseIs andb orb].

Ltac split_faults env :=
  repeat (match goal with
          | |- context [faults env ?n] => destruct (faults env n)
          end; exec).

Lemma awaiting_unfold (env : Env) (command : jsstring) (e : Effect)
    (tl : list Tick) (st : Local) (w : World) :
  awaiting env command e (st, tl) w
  = match flush env command tl st
            (tick (record (e, faults env (clock w)) w)) with
    | (Returned p, w') => (Returned (faults env (clock w), p), w')
    | (Threw x, w') => (Threw x, w')
    end.
Proof. reflexivity. Qed.

(** An awaited call: it is made first, then the handlers run until it
    settles. *)
Lemma awaiting_spec (env : Env) (command : jsstring) (e : Effect)
    (tl : list Tick) (st : Local) (w : World) :
  Inv st ->
  exists st' w' d,
    awaiting env command e (st, tl) w
      = (Returned (faults env (clock w), (st', afterGrace tl)), w') /\
    Inv st' /\
    output st' = output st ++ bufferOf (duringGrace tl) /\
    completed st' = completed st || hasCompleted (duringGrace tl) /\
    trace w' = trace w ++ (e, faults env (clock w)) :: d /\
    Handled (duringGrace tl) d.
Proof.
  intros HI.
  destruct (flush_spec env command tl st
              (tick (record (e, faults env (clock w)) w)) HI)
    as (st' & w' & E & I & O & C & d & T & F).
  exists st', w', d.
  unfold awaiting, start, bind, call, ret. simpl fst. simpl snd.
  rewrite E. repeat (split; [assumption || reflexivity|]).
  split; [|exact F]. rewrite T. simpl. rewrite <- app_assoc. reflexivity.
Qed.

(** The [try] statement: the handlers run during the race and the grace
    delay, the [approved] broadcast is made with the buffer of that moment,
    and the handlers run again while it is awaited and while the result is
    formatted.  The failure of the [approved] broadcast is the only
    exception of the [try] block, and the [catch] turns it into a result. *)
Lemma tryRaceAndFinalize_spec (env : Env) (command : jsstring)
    (tl : list Tick) (w : World) :
  exists st st' d l1 l2 k f w',
    Handled (streamed tl) d /\
    Handled (duringApproval tl) l1 /\
    Handled (duringReturn tl) l2 /\
    output st = bufferOf (streamed tl) /\
    completed st = hasCompleted (streamed tl) /\
    earlyExit st = (if completed st then exitApproved else exitPending) /\
    output st' = bufferOf (delivered tl) /\
    completed st' = hasCompleted (delivered tl) /\
    tryRaceAndFinalize env command tl w
      = (Returned match faults env k with
                  | None => success env st'
                  | Some x => failure env x
                  end, w') /\
    trace w' = trace w ++ d
               ++ (approvedBroadcast env command st, faults env k)
                  :: l1
                  ++ match faults env k with
                     | None => []
                     | Some x => [(errorBroadcast env command x, f)]
                     end
                  ++ l2.
Proof.
  assert (Inv initialLocal) as HI by (split; reflexivity).
  destruct (race_spec env command tl initialLocal w HI eq_refl)
    as (st1 & w1 & E1 & I1 & O1 & C1 & d1 & T1 & F1).
  destruct (flush_spec env command (afterRace tl) st1 w1 I1)
    as (st2 & w2 & E2 & I2 & O2 & C2 & d2 & T2 & F2).
  destruct (awaiting_spec env command (approvedBroadcast env command st2)
              (afterDelay tl) st2 w2 I2)
    as (st3 & w3 & d3 & E3 & I3 & O3 & C3 & T3 & F3).
  assert (output st2 = bufferOf (streamed tl)) as Ho2
    by (rewrite O2, O1; unfold streamed; rewrite bufferOf_app; reflexivity).
  assert (completed st2 = hasCompleted (streamed tl)) as Hc2
    by (rewrite C2, C1; unfold streamed, hasCompleted;
        rewrite existsb_app; reflexivity).
  assert (output st3 = bufferOf (delivered tl)) as Ho3
    by (rewrite O3, Ho2; unfold delivered, duringApproval;
        rewrite bufferOf_app; reflexivity).
  assert (completed st3 = hasCompleted (delivered tl)) as Hc3
    by (rewrite C3, Hc2; unfold delivered, duringApproval, hasCompleted;
        rewrite existsb_app; reflexivity).
  assert (Handled (streamed tl) (d1 ++ d2)) as Hd
    by (apply Handled_app; assumption).
  exists st2, st3, (d1 ++ d2), d3.
  unfold tryRaceAndFinalize, raceAndFinalize.
  unfold bind at 1. unfold bind at 1.
  rewrite E1. unfold bind at 1. simpl fst. simpl snd. rewrite E2.
  unfold bind at 1. simpl fst. simpl snd.
  unfold approvedBroadcast in E3. unfold afterDelay in E3. rewrite E3.
  simpl fst. simpl snd.
  cbv [userFeedback isEmpty orElse negb orb List.length Nat.eqb].
  destruct (faults env (clock w2)) as [x|] eqn:Ek.
  - destruct (flush_spec env command (afterGrace (afterDelay tl)) st3
                (tick (record (errorBroadcast env command x,
                               faults env (clock w3)) w3)) I3)
      as (st4 & w4 & E4 & _ & _ & _ & d4 & T4 & F4).
    exists d4, (clock w2), (faults env (clock w3)), w4.
    rewrite Ek. cbn [fst snd]. unfold ret at 1.
    unfold bind at 1, fire at 1, call at 1. cbn [fst snd].
    unfold bind at 1. unfold errorBroadcast, afterDelay in E4. rewrite E4.
    unfold ret.
    repeat (split; [assumption || apply I2|]).
    split; [reflexivity|].
    rewrite T4. simpl. rewrite T3. simpl. rewrite T2, T1.
    rewrite <- ?app_assoc. simpl. rewrite <- ?app_assoc. reflexivity.
  - destruct (flush_spec env command (afterGrace (afterDelay tl)) st3 w3 I3)
      as (st4 & w4 & E4 & _ & _ & _ & d4 & T4 & F4).
    exists d4, (clock w2), None, w4.
    rewrite Ek. cbn [fst snd].
    unfold finish, success, successText. cbn [fst snd].
    unfold afterDelay in E4.
    destruct (returnEmptyStringOnSuccess env);
      unfold bind at 1; rewrite E4; unfold ret;
      (repeat (split; [assumption || apply I2|]));
      (split; [reflexivity|]);
      rewrite T4, T3; simpl; rewrite T2, T1;
      rewrite <- ?app_assoc; simpl; rewrite <- ?app_assoc; reflexivity.
Qed.

(** An approved run that obtains its process handle. *)
Lemma approved_run (env : Env) (command : jsstring) (tl : list Tick) :
  isEmpty (trim command) = false ->
  terminalManagerIsAdvanced env = true ->
  spawnSucceeds env ->
  response (askAnswer env) = yesButtonTapped ->
  runCommandAnswer env = Some tl ->
  exists st st' d l1 l2 k f w,
    Handled (streamed tl) d /\
    Handled (duringApproval tl) l1 /\
    Handled (duringReturn tl) l2 /\
    output st = bufferOf (streamed tl) /\
    completed st = hasCompleted (streamed tl) /\
    earlyExit st = (if completed st then exitApproved else exitPending) /\
    output st' = bufferOf (delivered tl) /\
    completed st' = hasCompleted (delivered tl) /\
    run env (Some command)
      = (Returned match faults env k with
                  | None => success env st'
                  | Some x => failure env x
                  end, w) /\
    trace w = spawnTrace env command ++ d
              ++ (approvedBroadcast env command st, faults env k)
                 :: l1
                 ++ match faults env k with
                    | None => []
                    | Some x => [(errorBroadcast env command x, f)]
                    end
                 ++ l2.
Proof.
  intros Hv Ha Hs Hr Hp.
  assert (faults env 0 = None) as H0 by (apply Hs; lia).
  assert (faults env 1 = None) as H1 by (apply Hs; lia).
  assert (faults env 2 = None) as H2 by (apply Hs; lia).
  assert (faults env 3 = None) as H3 by (apply Hs; lia).
  assert (faults env 4 = None) as H4 by (apply Hs; lia).
  exec. rewrite Hv, Ha. exec. rewrite H0. exec. rewrite Hr. exec.
  rewrite H1, H2. exec. rewrite H3. exec. rewrite H4. exec. rewrite Hp.
  match goal with |- context [tryRaceAndFinalize env command tl ?w0] =>
    destruct (tryRaceAndFinalize_spec env command tl w0)
      as (st & st' & d & l1 & l2 & k & f & w' & Hd & Hl1 & Hl2 & Ho & Hc
          & He & Ho' & Hc' & Hrun & Htr)
  end.
  exists st, st', d, l1, l2, k, f, w'. rewrite Hrun.
  repeat (split; [assumption|]). split; [reflexivity|].
  cbv [trace] in Htr. rewrite Htr. reflexivity.
Qed.

(** Whatever the collaborators do, a command that is not accepted never
    reaches the terminal manager. *)
Lemma rejected_never_spawns (env : Env) (command : option jsstring) :
  response (askAnswer env) <> yesButtonTapped ->
  existsb isSpawn (calls (trace (snd (run env command)))) = false.
Proof.
  intros Hr. exec.
  destruct command as [c|]; [|split_faults env; reflexivity].
  destruct (isEmpty (trim c)); [split_faults env; reflexivity|]. exec.
  destruct (terminalManagerIsAdvanced env); [|reflexivity]. exec.
  split_faults env; try reflexivity;
    destruct (response (askAnswer env)); try congruence; exec;
    destruct (alwaysAllowWriteOnly env); exec; split_faults env; reflexivity.
Qed.

(** C5 as stated fails: when the awaited [rejected] broadcast that
    carries the operator's feedback throws, the exception leaves [execute]:
    no denial is returned, and the only [rejected] broadcast that went out
    is the one that was not awaited. *)
Example failed_rejection_broadcast_throws :
  let env :=
    {| faults :=
         fun k => if Nat.eqb k 2 then Some (ErrorOf (js "closed")) else None;
       serializeError := fun _ => js "{}";
       terminalManagerIsAdvanced := true;
       alwaysAllowWriteOnly := false;
       returnEmptyStringOnSuccess := false;
       autoCloseTerminal := None;
       ts := 1%N;
       isSubMsg := None;
       askAnswer :=
         {| response := messageResponse; text := Some (js "use ls");
            images := None |};
       runCommandAnswer := None |} in
  let out := run env (Some (js "rm -rf build")) in
  fst out = Threw (ErrorOf (js "closed")) /\
  attempts (trace (snd out)) = [rejected; rejected] /\
  broadcasts (trace (snd out)) = [rejected].
Proof. vm_compute. repeat split. Qed.

(** C5, amended: a command whose approval response is not
    [yesButtonTapped] never spawns a process, whatever the collaborators
    do.  When the command is not blank, the terminal manager is an
    [AdvancedTerminalManager] and the collaborator calls return normally,
    it broadcasts [rejected] and nothing else, and it returns the denial
    carrying the operator's text and images when the response is
    [messageResponse] and auto-approve write-only is off, the plain denial
    otherwise. *)
Theorem rejected_command_is_denied_without_spawn (env : Env) :
  response (askAnswer env) <> yesButtonTapped ->
  (forall command : option jsstring,
     existsb isSpawn (calls (trace (snd (run env command)))) = false) /\
  (forall command : jsstring,
     isEmpty (trim command) = false ->
     terminalManagerIsAdvanced env = true ->
     noFaults env ->
     exists w,
       run env (Some command)
         = (Returned
              (if responseIs messageResponse (response (askAnswer env))
                  && negb (alwaysAllowWriteOnly env)
               then ToolDeniedFeedback (text (askAnswer env))
                      (images (askAnswer env))
               else ToolDenied), w) /\
       existsb isSpawn (calls (trace w)) = false /\
       In rejected (broadcasts (trace w)) /\
       (forall s, In s (broadcasts (trace w)) -> s = rejected)).
Proof.
  intros Hr. split; [intros command; exact (rejected_never_spawns env command Hr)|].
  intros command Hv Ha Hf.
  pose proof (rejected_never_spawns env (Some command) Hr) as Hs.
  revert Hs. unfold noFaults in Hf.
  exec. rewrite Hv, Ha. exec. rewrite !Hf. exec.
  destruct (response (askAnswer env)); try congruence; exec;
    destruct (alwaysAllowWriteOnly env); exec; rewrite ?Hf; exec;
    intros Hs; eexists; (split; [reflexivity|]); (split; [exact Hs|]);
    simpl; intuition congruence.
Qed.

Lemma rejected_command_is_denied_without_spawn_witness :
  let a := {| response := messageResponse;
              text := Some (js "use ls"); images := None |} in
  exists w,
    run (sampleEnv a None false) (Some (js "rm -rf build"))
      = (Returned (ToolDeniedFeedback (Some (js "use ls")) None), w) /\
    existsb isSpawn (calls (trace w)) = false /\
    In rejected (broadcasts (trace w)) /\
    (forall s, In s (broadcasts (trace w)) -> s = rejected).
Proof.
  intros a.
  assert (response (askAnswer (sampleEnv a None false)) <> yesButtonTapped)
    as Hr by discriminate.
  apply (proj2 (rejected_command_is_denied_without_spawn
                  (sampleEnv a None false) Hr)
           (js "rm -rf build"));
    [reflexivity | reflexivity | intros k; reflexivity].
Defined.

(** C2 as stated fails: with [returnEmptyStringOnSuccess] set, a command
    that completes before the timeout returns the empty text. *)
Example quiet_success_has_no_text :
  let tl := [Emit (Line (js "hi")); Emit Completed] in
  hasCompleted (duringRace tl) = true /\
  fst (run (sampleEnv accept (Some tl) true) (Some (js "echo hi")))
    = Returned (ResponseWithImages [] (Some [])) /\
  includes (js "completed successfully") [] = false.
Proof. vm_compute. repeat split. Qed.

(** The wording follows [completed] at the moment of finalizing: a process
    that completes during the 300 ms grace delay, after the timer won the
    race, is reported as completed. *)
Example completion_during_grace_counts :
  let tl := [Emit (Line (js "hi")); Resumes; Emit Completed] in
  hasCompleted (duringRace tl) = false /\
  fst (run (sampleEnv accept (Some tl) false) (Some (js "sleep 45")))
    = Returned (ResponseWithImages
                  (js "Command execution completed successfully.

Output:
<output>
hi

</output>") None).
Proof. vm_compute. repeat split. Qed.

(** The partial wording starts with a capital letter, and an empty buffer
    is shown as [No output]. *)
Example partial_wording :
  let r := ResponseWithImages
             (js "The command has been executed.

Partial output available:
<output>
No output
</output>") None in
  fst (run (sampleEnv accept (Some [Resumes]) false) (Some (js "sleep 60")))
    = Returned r /\
  includes (js "partial output available")
    (js "The command has been executed.

Partial output available:
<output>
No output
</output>") = false.
Proof. vm_compute. repeat split. Qed.

(** C2, amended: an approved command whose broadcasts succeed and which
    is not asked for an empty result returns a plain response, never an
    error.  If [completed] has been received when the engine finalizes,
    which is the case whenever it arrives before the timer fires, the text
    contains "completed successfully" and the section
    [Output:<output>...</output>]; otherwise it contains
    "Partial output available" and the same section.  The section holds the
    buffer verbatim, or [No output] when the buffer is empty. *)
Theorem approved_command_result
    (env : Env) (command : jsstring) (tl : list Tick) :
  isEmpty (trim command) = false ->
  terminalManagerIsAdvanced env = true ->
  noFaults env ->
  response (askAnswer env) = yesButtonTapped ->
  runCommandAnswer env = Some tl ->
  returnEmptyStringOnSuccess env = false ->
  let shown := orDefault (bufferOf (delivered tl)) (js "No output") in
  exists body w,
    run env (Some command) = (Returned (ResponseWithImages body None), w) /\
    body = (if hasCompleted (delivered tl)
            then js "Command execution completed successfully." ++ js "

Output:
<output>
" ++ shown ++ js "
</output>"
            else js "The command has been executed." ++ js "

Partial output available:
<output>
" ++ shown ++ js "
</output>") /\
    (hasCompleted (duringRace tl) = true ->
     hasCompleted (delivered tl) = true) /\
    (hasCompleted (delivered tl) = true ->
     includes (js "completed successfully") body = true /\
     includes (js "Output:
<output>
" ++ shown ++ js "
</output>") body = true) /\
    (hasCompleted (delivered tl) = false ->
     includes (js "Partial output available") body = true /\
     includes (js "<output>
" ++ shown ++ js "
</output>") body = true).
Proof.
  intros Hv Ha Hf Hr Hp Hq shown.
  destruct (approved_run env command tl Hv Ha (fun k _ => Hf k) Hr Hp)
    as (st0 & st & d & l1 & l2 & k & f & w & _ & _ & _ & _ & _ & _ & Ho & Hc
        & Hrun & _).
  rewrite (Hf k) in Hrun. unfold success in Hrun. rewrite Hq in Hrun.
  unfold successText, outputSection in Hrun. rewrite Hc, Ho in Hrun.
  fold shown in Hrun.
  eexists; exists w. split; [exact Hrun|].
  split; [destruct (hasCompleted (delivered tl)); reflexivity|].
  split; [|split].
  - intros H. unfold delivered, streamed, hasCompleted in *.
    rewrite !existsb_app, H. reflexivity.
  - intros ->. split.
    + apply includes_app_l. vm_compute. reflexivity.
    + apply (includes_infix _
               (js "Command execution completed successfully." ++ [nl; nl]) []).
      rewrite app_nil_r, <- !app_assoc. reflexivity.
  - intros ->. split.
    + apply includes_app_r, includes_app_l. vm_compute. reflexivity.
    + apply (includes_infix _
               (js "The command has been executed." ++ js "

Partial output available:
") []).
      rewrite app_nil_r, <- !app_assoc. reflexivity.
Qed.

Lemma approved_command_result_witness :
  let tl := [Emit (Line (js "hi")); Emit Completed] in
  exists body w,
    run (sampleEnv accept (Some tl) false) (Some (js "echo hi"))
      = (Returned (ResponseWithImages body None), w) /\
    body = js "Command execution completed successfully.

Output:
<output>
hi

</output>" /\
    includes (js "completed successfully") body = true /\
    includes (js "Output:
<output>
hi

</output>") body = true.
Proof.
  intros tl.
  destruct (approved_command_result (sampleEnv accept (Some tl) false)
              (js "echo hi") tl)
    as (body & w & Hrun & Hbody & _ & Hdone & _);
    [reflexivity | reflexivity | intros k; reflexivity | reflexivity
    | reflexivity | reflexivity |].
  exists body, w. split; [exact Hrun|]. split; [exact Hbody|].
  apply Hdone. reflexivity.
Defined.

(** C4 as stated fails: an empty line event adds nothing to the buffer. *)
Example empty_line_is_not_buffered :
  let evs := [Line (js "a"); Line []; Line (js "b")] in
  bufferAfter (sampleEnv accept None false) (js "printf") evs
    = Some (js "a
b
") /\
  bufferAfter (sampleEnv accept None false) (js "printf") evs
    <> Some (everyLine evs).
Proof. vm_compute. split; [reflexivity|discriminate]. Qed.

(** C4, amended: after any sequence of events the buffer is the
    concatenation, in order, of the non-empty line payloads received so
    far, each followed by a newline; later events only append to it; a
    non-empty line is broadcast with the whole buffer; and the [approved]
    broadcast, which is made once, carries the buffer of the events
    delivered until then. *)
Theorem buffer_is_the_nonempty_lines_in_order
    (env : Env) (command : jsstring) (w : World) :
  (forall evs,
     exists st w',
       deliver env command evs initialLocal w = (Returned st, w') /\
       output st = bufferOf evs) /\
  (forall evs more,
     exists st st' w' w'',
       deliver env command evs initialLocal w = (Returned st, w') /\
       deliver env command (evs ++ more) initialLocal w = (Returned st', w'') /\
       output st' = output st ++ bufferOf more) /\
  (forall l st,
     isEmpty l = false ->
     exists st' w',
       onLine env command l st w = (Returned st', w') /\
       output st' = output st ++ l ++ [nl] /\
       In (EUpdateAsk (msg env command (Some (output st')) loading
                         (Some (earlyExit st)) None))
          (calls (trace w'))) /\
  (forall tl,
     exists st r w' before f after,
       tryRaceAndFinalize env command tl w = (Returned r, w') /\
       output st = bufferOf (streamed tl) /\
       trace w' = trace w ++ before
                  ++ (approvedBroadcast env command st, f) :: after /\
       ~ In approved (attempts before) /\
       ~ In approved (attempts after)).
Proof.
  assert (Inv initialLocal) as HI by (split; reflexivity).
  split; [|split; [|split]].
  - intros evs.
    destruct (deliver_spec env command evs initialLocal w HI)
      as (st & w' & E & _ & O & _).
    exists st, w'. split; [exact E|exact O].
  - intros evs more.
    destruct (deliver_spec env command evs initialLocal w HI)
      as (st & w' & E & _ & O & _).
    destruct (deliver_spec env command (evs ++ more) initialLocal w HI)
      as (st' & w'' & E' & _ & O' & _).
    exists st, st', w', w''. split; [exact E|]. split; [exact E'|].
    rewrite O', O, bufferOf_app. simpl. reflexivity.
  - intros l st Hl. unfold onLine. rewrite Hl.
    cbv [didContinue negb orb bind tryCatch call emit ret].
    destruct (faults env (clock w)); eexists; eexists;
      (split; [reflexivity|]); (split; [reflexivity|]);
      simpl; unfold calls; rewrite ?map_app; simpl;
      rewrite ?in_app_iff; simpl; tauto.
  - intros tl.
    destruct (tryRaceAndFinalize_spec env command tl w)
      as (st & st' & d & l1 & l2 & k & f & w' & [Fd _] & [F1 _] & [F2 _]
          & Ho & _ & _ & _ & _ & Hrun & Htr).
    exists st. eexists. exists w', d. eexists. eexists.
    split; [exact Hrun|]. split; [exact Ho|]. split; [exact Htr|].
    split.
    + intros Hin. apply (streaming_attempts d Fd) in Hin. discriminate.
    + rewrite !attempts_app, !in_app_iff. intros [Hin|[Hin|Hin]].
      * apply (streaming_attempts l1 F1) in Hin. discriminate.
      * destruct (faults env k); simpl in Hin; intuition discriminate.
      * apply (streaming_attempts l2 F2) in Hin. discriminate.
Qed.

(** C7 as stated fails: the guard on the terminal manager throws out of
    [execute], and nothing is broadcast. *)
Example guard_throws_out_of_execute :
  let env :=
    {| faults := fun _ => None;
       serializeError := fun _ => js "{}";
       terminalManagerIsAdvanced := false;
       alwaysAllowWriteOnly := false;
       returnEmptyStringOnSuccess := false;
       autoCloseTerminal := None;
       ts := 1%N;
       isSubMsg := None;
       askAnswer := accept;
       runCommandAnswer := Some [Emit Completed] |} in
  fst (run env (Some (js "ls")))
    = Threw (ErrorOf (js "AdvancedTerminalManager is not available")) /\
  attempts (trace (snd (run env (Some (js "ls"))))) = [].
Proof. vm_compute. split; reflexivity. Qed.

(** So does a missing process handle: the spawn is outside the [try]. *)
Example null_process_throws_out_of_execute :
  fst (run (sampleEnv accept None false) (Some (js "ls")))
    = Threw (ErrorOf (js "Failed to create terminal process after retries")) /\
  attempts (trace (snd (run (sampleEnv accept None false) (Some (js "ls")))))
    = [loading].
Proof. vm_compute. split; reflexivity. Qed.

(** The exception of the [no_shell_integration] listener stays in the
    listener: the engine goes on to a result that is not an error, and no
    [error] state is broadcast. *)
Example no_shell_integration_is_not_caught :
  let tl := [Emit NoShellIntegration; Resumes] in
  let out := run (sampleEnv accept (Some tl) false) (Some (js "ls")) in
  fst out = Returned (ResponseWithImages
                        (js "The command has been executed.

Partial output available:
<output>
No output
</output>") None) /\
  In (EUnhandledRejection (ErrorOf noShellMessage)) (calls (trace (snd out))) /\
  attempts (trace (snd out)) = [loading; approved].
Proof. vm_compute. repeat split. tauto. Qed.

(** Once the process handle is obtained, the only exception left is that
    of the [approved] broadcast, and the [catch] turns it into a result. *)
Lemma race_failure_is_caught
    (env : Env) (command : jsstring) (tl : list Tick) :
  isEmpty (trim command) = false ->
  terminalManagerIsAdvanced env = true ->
  spawnSucceeds env ->
  response (askAnswer env) = yesButtonTapped ->
  runCommandAnswer env = Some tl ->
  exists r w,
    run env (Some command) = (Returned r, w) /\
    (((exists body imgs, r = ResponseWithImages body imgs) /\
      In approved (broadcasts (trace w)) /\
      ~ In error (attempts (trace w)))
     \/
     (exists x st before between f after,
        trace w = before
                  ++ (approvedBroadcast env command st, Some x)
                     :: between
                     ++ (errorBroadcast env command x, f) :: after /\
        forallb streamingEntry between = true /\
        forallb streamingEntry after = true /\
        r = ToolError (js "Error executing command:
" ++ errorMessageOf env x))).
Proof.
  intros Hv Ha Hs Hr Hp.
  destruct (approved_run env command tl Hv Ha Hs Hr Hp)
    as (st & st' & d & l1 & l2 & k & f & w & [Fd _] & [F1 _] & [F2 _]
        & _ & _ & _ & _ & _ & Hrun & Htr).
  eexists; exists w. split; [exact Hrun|].
  destruct (faults env k) as [x|].
  - right. exists x, st, (spawnTrace env command ++ d), l1, f, l2.
    split; [rewrite Htr, <- app_assoc; reflexivity|].
    split; [exact F1|]. split; [exact F2|reflexivity].
  - left. split; [|split].
    + unfold success. destruct (returnEmptyStringOnSuccess env);
        eexists; eexists; reflexivity.
    + rewrite Htr, !broadcasts_app, !in_app_iff.
      right. right. left. reflexivity.
    + rewrite Htr.
      change ((approvedBroadcast env command st, None) :: l1 ++ [] ++ l2)
        with ([(approvedBroadcast env command st, None)] ++ l1 ++ l2).
      rewrite !attempts_app, !in_app_iff.
      intros [Hin|[Hin|[Hin|[Hin|Hin]]]].
      * simpl in Hin. intuition discriminate.
      * apply (streaming_attempts d Fd) in Hin. discriminate.
      * simpl in Hin. intuition discriminate.
      * apply (streaming_attempts l1 F1) in Hin. discriminate.
      * apply (streaming_attempts l2 F2) in Hin. discriminate.
Qed.

(** C7, amended: once the process handle is obtained, [execute] returns.
    Either the [approved] broadcast succeeds and the result is a success,
    with no [error] broadcast; or its exception is caught: an [error]
    broadcast whose output is the error message is made, with only entries
    of the event handlers between the failure and it and after it, and the
    result is the error text built from that message.  The message is the
    [message] property of what was thrown when that is a non-empty string,
    whether or not an [Error] was thrown, and the serialized error
    otherwise.  Before the [try] block exceptions propagate: the guard on
    the terminal manager throws before anything is asked, and a
    [runCommand] without handle throws after the spawn. *)
Theorem race_failure_becomes_error_result :
  (forall (env : Env) (command : jsstring) (tl : list Tick),
     isEmpty (trim command) = false ->
     terminalManagerIsAdvanced env = true ->
     spawnSucceeds env ->
     response (askAnswer env) = yesButtonTapped ->
     runCommandAnswer env = Some tl ->
     exists r w,
       run env (Some command) = (Returned r, w) /\
       (((exists body imgs, r = ResponseWithImages body imgs) /\
         In approved (broadcasts (trace w)) /\
         ~ In error (attempts (trace w)))
        \/
        (exists x st before between f after,
           trace w = before
                     ++ (approvedBroadcast env command st, Some x)
                        :: between
                        ++ (errorBroadcast env command x, f) :: after /\
           forallb streamingEntry between = true /\
           forallb streamingEntry after = true /\
           r = ToolError (js "Error executing command:
" ++ errorMessageOf env x)))) /\
  (forall (env : Env) (x : Exn),
     (forall m, messageOf x = Some m -> isEmpty m = false ->
                errorMessageOf env x = m) /\
     (messageOf x = None \/ messageOf x = Some [] ->
      errorMessageOf env x = serializeError env x)) /\
  (forall (env : Env) (command : jsstring),
     isEmpty (trim command) = false ->
     terminalManagerIsAdvanced env = false ->
     run env (Some command)
       = (Threw (ErrorOf (js "AdvancedTerminalManager is not available")),
          initialWorld)) /\
  (forall (env : Env) (command : jsstring),
     isEmpty (trim command) = false ->
     terminalManagerIsAdvanced env = true ->
     spawnSucceeds env ->
     response (askAnswer env) = yesButtonTapped ->
     runCommandAnswer env = None ->
     fst (run env (Some command))
       = Threw (ErrorOf (js "Failed to create terminal process after retries"))).
Proof.
  split; [exact race_failure_is_caught|]. split; [|split].
  - intros env x. unfold errorMessageOf, orDefault. split.
    + intros m -> Hm. rewrite Hm. reflexivity.
    + intros [->| ->]; reflexivity.
  - intros env command Hv Ha. exec. rewrite Hv, Ha. reflexivity.
  - intros env command Hv Ha Hs Hr Hp.
    assert (faults env 0 = None) as H0 by (apply Hs; lia).
    assert (faults env 2 = None) as H2 by (apply Hs; lia).
    assert (faults env 3 = None) as H3 by (apply Hs; lia).
    assert (faults env 4 = None) as H4 by (apply Hs; lia).
    exec. rewrite Hv, Ha. exec. rewrite H0. exec. rewrite Hr. exec.
    rewrite H2. exec. rewrite H3. exec. rewrite H4. exec. rewrite Hp.
    reflexivity.
Qed.

Lemma race_failure_becomes_error_result_witness :
  fst (run (failingEnv (ThrownValue (Some (js "denied")) (js "[object Object]")))
         (Some (js "ls")))
    = Returned (ToolError (js "Error executing command:
denied")) /\
  exists r w,
    run (failingEnv (ThrownValue (Some (js "denied")) (js "[object Object]")))
      (Some (js "ls")) = (Returned r, w) /\
    (((exists body imgs, r = ResponseWithImages body imgs) /\
      In approved (broadcasts (trace w)) /\
      ~ In error (attempts (trace w)))
     \/
     (exists x st before between f after,
        trace w = before
                  ++ (approvedBroadcast
                        (failingEnv (ThrownValue (Some (js "denied"))
                                       (js "[object Object]")))
                        (js "ls") st, Some x)
                     :: between
                     ++ (errorBroadcast
                           (failingEnv (ThrownValue (Some (js "denied"))
                                          (js "[object Object]")))
                           (js "ls") x, f) :: after /\
        forallb streamingEntry between = true /\
        forallb streamingEntry after = true /\
        r = ToolError (js "Error executing command:
" ++ errorMessageOf
       (failingEnv (ThrownValue (Some (js "denied")) (js "[object Object]")))
       x))).
Proof.
  split; [vm_compute; reflexivity|].
  apply (proj1 race_failure_becomes_error_result
           (failingEnv (ThrownValue (Some (js "denied"))
                          (js "[object Object]")))
           (js "ls")
           [Emit (Line (js "hi")); Resumes; Resumes; Emit (Line (js "late"))]);
    try reflexivity.
  intros k Hk. do 5 (destruct k as [|k]; [reflexivity|]). lia.
Defined.

End CommandFacts.

(** ** The terminal state of an invocation *)

Module TerminalState.

Import CommandSpec.

(** A command that fails validation never touches the approval
    channel. *)
Lemma blank_command_is_silent
    (env : ExecuteCommandTool.Env) (command : option jsstring) :
  isEmpty (trim (orElse command [])) = true ->
  attempts (trace (snd (ExecuteCommandTool.run env command))) = [].
Proof.
  intros Hb. CommandFacts.exec. destruct command as [c|].
  - simpl in Hb. rewrite Hb. CommandFacts.exec.
    destruct (ExecuteCommandTool.faults env 0); reflexivity.
  - destruct (ExecuteCommandTool.faults env 0); reflexivity.
Qed.

Lemma command_ends_terminal
    (env : ExecuteCommandTool.Env) (command : jsstring) :
  isEmpty (trim command) = false ->
  ExecuteCommandTool.terminalManagerIsAdvanced env = true ->
  CommandSpec.spawnSucceeds env ->
  (response (ExecuteCommandTool.askAnswer env) = yesButtonTapped ->
   ExecuteCommandTool.runCommandAnswer env <> None) ->
  exists s,
    isTerminal s = true /\
    In s (attempts (trace (snd (ExecuteCommandTool.run env (Some command))))) /\
    (forall s',
       In s' (broadcasts (trace (snd (ExecuteCommandTool.run env (Some command))))) ->
       s' = loading \/ s' = s) /\
    (In s (broadcasts (trace (snd (ExecuteCommandTool.run env (Some command)))))
     \/ errorBroadcastFailed s
          (trace (snd (ExecuteCommandTool.run env (Some command))))) /\
    (CommandSpec.quietAfterGrace env ->
     lastOf (attempts (trace (snd (ExecuteCommandTool.run env (Some command)))))
       = Some s /\
     (lastOf (broadcasts (trace (snd (ExecuteCommandTool.run env (Some command)))))
        = Some s
      \/ errorBroadcastFailed s
           (trace (snd (ExecuteCommandTool.run env (Some command)))))).
Proof.
  intros Hv Ha Hs Hp.
  destruct (response (ExecuteCommandTool.askAnswer env)) eqn:Hr.
  - destruct (ExecuteCommandTool.runCommandAnswer env) as [tl|] eqn:Hrc;
      [|exfalso; apply Hp; reflexivity].
    destruct (CommandFacts.approved_run env command tl Hv Ha Hs Hr Hrc)
      as (st & st' & d & l1 & l2 & k & f & w & [Fd _] & [F1 Q1] & [F2 Q2]
          & _ & _ & _ & _ & _ & Hrun & Htr).
    rewrite Hrun. simpl snd. rewrite Htr.
    assert (forall s', In s' (broadcasts d) -> s' = loading) as Hd
      by exact (streaming_broadcasts d Fd).
    assert (forall s', In s' (broadcasts l1) -> s' = loading) as Hl1
      by exact (streaming_broadcasts l1 F1).
    assert (forall s', In s' (broadcasts l2) -> s' = loading) as Hl2
      by exact (streaming_broadcasts l2 F2).
    assert (CommandSpec.quietAfterGrace env ->
            attempts l1 = [] /\ attempts l2 = []) as Hq.
    { intros Hq. specialize (Hq tl Hrc). unfold CommandSpec.late in Hq.
      rewrite CommandStreaming.bufferOf_app in Hq.
      apply app_eq_nil in Hq. destruct Hq as [E1 E2]. auto. }
    change ((CommandSpec.approvedBroadcast env command st,
             ExecuteCommandTool.faults env k)
            :: l1
               ++ match ExecuteCommandTool.faults env k with
                  | Some x => [(CommandSpec.errorBroadcast env command x, f)]
                  | None => []
                  end ++ l2)
      with ([(CommandSpec.approvedBroadcast env command st,
              ExecuteCommandTool.faults env k)]
            ++ l1
               ++ match ExecuteCommandTool.faults env k with
                  | Some x => [(CommandSpec.errorBroadcast env command x, f)]
                  | None => []
                  end ++ l2).
    rewrite !attempts_app, !broadcasts_app.
    destruct (ExecuteCommandTool.faults env k) as [x|].
    + exists error. split; [reflexivity|]. split; [|split; [|split]].
      * rewrite !in_app_iff. do 4 right. left. left. reflexivity.
      * intros s' Hin. rewrite !in_app_iff in Hin.
        destruct Hin as [Hin|[Hin|[Hin|[Hin|[Hin|Hin]]]]]; auto.
        -- simpl in Hin. intuition.
        -- simpl in Hin. contradiction.
        -- destruct f; simpl in Hin; intuition.
      * destruct f as [y|].
        -- right. split; [reflexivity|].
           exists (ExecuteCommandTool.msg env command
                     (Some (ExecuteCommandTool.errorMessageOf env x))
                     error None None), y.
           split; [|reflexivity].
           rewrite !in_app_iff. do 4 right. left. left. reflexivity.
        -- left. rewrite !in_app_iff. do 4 right. left. left. reflexivity.
      * intros Hquiet. destruct (Hq Hquiet) as [A1 A2].
        rewrite A1, A2, (quiet_broadcasts l1 A1), (quiet_broadcasts l2 A2).
        split.
        -- repeat (first [reflexivity | apply lastOf_app]).
        -- destruct f as [y|].
           ++ right. split; [reflexivity|].
              exists (ExecuteCommandTool.msg env command
                        (Some (ExecuteCommandTool.errorMessageOf env x))
                        error None None), y.
              split; [|reflexivity].
              rewrite !in_app_iff. do 4 right. left. left. reflexivity.
           ++ left. repeat (first [reflexivity | apply lastOf_app]).
    + exists approved. split; [reflexivity|]. split; [|split; [|split]].
      * rewrite !in_app_iff. right. right. left. left. reflexivity.
      * intros s' Hin. rewrite !in_app_iff in Hin.
        destruct Hin as [Hin|[Hin|[Hin|[Hin|[Hin|Hin]]]]]; auto.
        -- simpl in Hin. intuition.
        -- simpl in Hin. intuition.
        -- simpl in Hin. contradiction.
      * left. rewrite !in_app_iff. right. right. left. left. reflexivity.
      * intros Hquiet. destruct (Hq Hquiet) as [A1 A2].
        rewrite A1, A2, (quiet_broadcasts l1 A1), (quiet_broadcasts l2 A2).
        split; [|left]; repeat (first [reflexivity | apply lastOf_app]).
  - exists rejected.
    assert (ExecuteCommandTool.faults env 0 = None) as H0 by (apply Hs; lia).
    assert (ExecuteCommandTool.faults env 1 = None) as H1 by (apply Hs; lia).
    CommandFacts.exec. rewrite Hv, Ha. CommandFacts.exec.
    rewrite H0. CommandFacts.exec. rewrite Hr. CommandFacts.exec.
    rewrite H1. simpl.
    repeat split; try tauto; try (left; reflexivity);
      intros s' [<-|[]]; right; reflexivity.
  - exists rejected.
    assert (ExecuteCommandTool.faults env 0 = None) as H0 by (apply Hs; lia).
    assert (ExecuteCommandTool.faults env 1 = None) as H1 by (apply Hs; lia).
    assert (ExecuteCommandTool.faults env 2 = None) as H2 by (apply Hs; lia).
    assert (ExecuteCommandTool.faults env 3 = None) as H3 by (apply Hs; lia).
    CommandFacts.exec. rewrite Hv, Ha. CommandFacts.exec.
    rewrite H0. CommandFacts.exec. rewrite Hr. CommandFacts.exec.
    destruct (ExecuteCommandTool.alwaysAllowWriteOnly env);
      CommandFacts.exec; rewrite ?H1, ?H2, ?H3; CommandFacts.exec;
      simpl; repeat split; try tauto; try (left; reflexivity);
      intros s' Hin; right; intuition congruence.
Qed.

Lemma write_broadcasts_once
    (env : WriteFileTool.Env) (path content : jsstring) :
  isEmpty path = false -> isEmpty content = false ->
  WriteSpec.noFaults env ->
  exists s,
    broadcasts (trace (snd (WriteFileTool.run env (Some path) (Some content))))
      = [s] /\
    attempts (trace (snd (WriteFileTool.run env (Some path) (Some content))))
      = [s] /\
    (s = rejected \/ s = approved).
Proof.
  intros Hp Hc Hf. unfold WriteSpec.noFaults in Hf.
  WriteFileFacts.exec. rewrite Hp, Hc.
  destruct (WriteFileTool.isDiffViewOpen env); WriteFileFacts.no_faults Hf;
    destruct (response (WriteFileTool.askAnswer env));
    WriteFileFacts.no_faults Hf;
    try (exists rejected;
         split; [reflexivity|split; [reflexivity|left; reflexivity]]);
    destruct (WriteFileTool.userEdits env) as [[|c edits]|];
    cbv [isEmpty]; WriteFileFacts.no_faults Hf;
    exists approved;
    (split; [reflexivity|split; [reflexivity|right; reflexivity]]).
Qed.


(** A failure of the diff session is turned into a text by the [catch] of
    [processFileWrite], which broadcasts nothing. *)
Example failed_save_is_not_broadcast :
  let env :=
    {| WriteFileTool.faults :=
         fun k => if Nat.eqb k 4 then Some (ErrorOf (js "disk full")) else None;
       WriteFileTool.stringOf := fun _ => js "error";
       WriteFileTool.toPosix := fun p => p;
       WriteFileTool.getReadablePath := fun p => p;
       WriteFileTool.ts := 1%N;
       WriteFileTool.askAnswer := CommandSpec.accept;
       WriteFileTool.isDiffViewOpen := false;
       WriteFileTool.fileExistsAtPath := false;
       WriteFileTool.userEdits := None |} in
  let out := WriteFileTool.run env (Some (js "a.txt")) (Some (js "hello")) in
  fst out = Returned (FormatToolResponse
                        (js "Write to File Error With:disk full") None) /\
  lastOf (calls (trace (snd out)))
    = Some (EConsole "Error in processFileWrite:"
              (Some (ErrorOf (js "disk full")))) /\
  attempts (trace (snd out)) = [].
Proof. vm_compute. repeat split. Qed.

(** A line that arrives while the [approved] broadcast is awaited is
    broadcast as [loading] after it: the last broadcast of the run is not a
    terminal one, and the result shows a line that the [approved] broadcast
    did not carry. *)
Example late_line_follows_the_approved_broadcast :
  attempts
    (trace (snd (ExecuteCommandTool.run
                   (CommandSpec.sampleEnv CommandSpec.accept
                      (Some [ExecuteCommandTool.Emit ExecuteCommandTool.Completed;
                             ExecuteCommandTool.Resumes;
                             ExecuteCommandTool.Emit
                               (ExecuteCommandTool.Line (js "late"))])
                      false)
                   (Some (js "ls")))))
    = [loading; approved; loading] /\
  fst (ExecuteCommandTool.run
         (CommandSpec.sampleEnv CommandSpec.accept
            (Some [ExecuteCommandTool.Emit ExecuteCommandTool.Completed;
                   ExecuteCommandTool.Resumes;
                   ExecuteCommandTool.Emit
                     (ExecuteCommandTool.Line (js "late"))])
            false)
         (Some (js "ls")))
    = Returned (ResponseWithImages
                  (js "Command execution completed successfully.

Output:
<output>
late

</output>") None).
Proof. vm_compute. split; reflexivity. Qed.



End TerminalState.

(** * Further properties *)

(** ** More on strings and on [preprocessContent] *)

Section MoreStringFacts.

Lemma split_app_sep (sep : jschar) (a b : jsstring) :
  split sep (a ++ sep :: b) = split sep a ++ split sep b.
Proof.
  induction a as [|c a IH]; simpl.
  - rewrite N.eqb_refl. reflexivity.
  - rewrite IH. pose proof (split_not_nil sep a) as Hn.
    destruct (c =? sep)%N; [reflexivity|].
    destruct (split sep a); [congruence|reflexivity].
Qed.

Lemma split_lacks (sep : jschar) (s : jsstring) :
  lacks sep s = true -> split sep s = [s].
Proof.
  induction s as [|c s IH]; simpl; [reflexivity|].
  intros H. apply andb_prop in H. destruct H as [Hc Hs].
  apply negb_true_iff in Hc. rewrite Hc, (IH Hs). reflexivity.
Qed.

Lemma lacks_app (c : jschar) (a b : jsstring) :
  lacks c (a ++ b) = lacks c a && lacks c b.
Proof. apply forallb_app. Qed.

Lemma trimEnd_keep (s t : jsstring) :
  trimEnd t <> [] -> trimEnd (s ++ t) = s ++ trimEnd t.
Proof.
  intros Ht. induction s as [|c s IH]; [reflexivity|].
  simpl. rewrite IH. destruct (s ++ trimEnd t) eqn:E; [|reflexivity].
  apply app_eq_nil in E. tauto.
Qed.

Lemma trimStart_app (a b : jsstring) :
  trimStart (a ++ b)
  = match trimStart a with [] => trimStart b | t => t ++ b end.
Proof.
  induction a as [|c a IH]; simpl; [destruct (trimStart b); reflexivity|].
  destruct (isWhiteSpace c); [exact IH|reflexivity].
Qed.

Lemma endsWith_app (p a : jsstring) : endsWith p (a ++ p) = true.
Proof. unfold endsWith. rewrite rev_app_distr. apply startsWith_app. Qed.

(** [trimStart] keeps a suffix, [trimEnd] a prefix. *)
Lemma trimStart_suffix (s : jsstring) : exists a, s = a ++ trimStart s.
Proof.
  induction s as [|c s [a IH]]; simpl; [exists []; reflexivity|].
  destruct (isWhiteSpace c).
  - exists (c :: a). simpl. rewrite <- IH. reflexivity.
  - exists []. reflexivity.
Qed.

Lemma trimEnd_prefix (s : jsstring) : exists b, s = trimEnd s ++ b.
Proof.
  induction s as [|c s [b IH]]; simpl; [exists []; reflexivity|].
  destruct (trimEnd s) as [|d t].
  - destruct (isWhiteSpace c).
    + exists (c :: s). reflexivity.
    + exists b. simpl. simpl in IH. rewrite <- IH. reflexivity.
  - exists b. simpl. rewrite IH at 1. reflexivity.
Qed.

Lemma trim_infix (s : jsstring) : exists a b, s = a ++ trim s ++ b.
Proof.
  destruct (trimStart_suffix s) as [a Ha].
  destruct (trimEnd_prefix (trimStart s)) as [b Hb].
  exists a, b. unfold trim. rewrite <- Hb. exact Ha.
Qed.

(** Dropping the first line keeps a suffix, dropping the last line a
    prefix. *)
Lemma join_tail_suffix (parts : list jsstring) :
  exists a, join [nl] parts = a ++ join [nl] (sliceFrom1 parts).
Proof.
  destruct parts as [|p [|q ps]].
  - exists []. reflexivity.
  - exists p. simpl. rewrite app_nil_r. reflexivity.
  - exists (p ++ [nl]). rewrite join_cons, <- app_assoc. reflexivity.
Qed.

Lemma join_init_prefix (parts : list jsstring) :
  exists b, join [nl] parts = join [nl] (sliceButLast parts) ++ b.
Proof.
  unfold sliceButLast.
  induction parts as [|p parts [b IH]]; [exists []; reflexivity|].
  destruct parts as [|q ps]; [exists p; reflexivity|].
  change (removelast (p :: q :: ps)) with (p :: removelast (q :: ps)).
  rewrite join_cons, IH.
  destruct (removelast (q :: ps)) as [|x xs].
  - exists ([nl] ++ b). simpl. reflexivity.
  - exists b. rewrite join_cons, <- !app_assoc. reflexivity.
Qed.

Lemma stripLeadingFence_infix (s : jsstring) :
  exists a b, s = a ++ stripLeadingFence s ++ b.
Proof.
  unfold stripLeadingFence. destruct (startsWith fence s).
  - destruct (join_tail_suffix (split nl s)) as [a Ha].
    rewrite join_split in Ha.
    destruct (trim_infix (join [nl] (sliceFrom1 (split nl s)))) as (a' & b' & H).
    exists (a ++ a'), b'. rewrite Ha at 1. rewrite H at 1.
    rewrite <- !app_assoc. reflexivity.
  - exists [], []. rewrite app_nil_r. reflexivity.
Qed.

Lemma stripTrailingFence_infix (s : jsstring) :
  exists a b, s = a ++ stripTrailingFence s ++ b.
Proof.
  unfold stripTrailingFence. destruct (endsWith fence s).
  - destruct (join_init_prefix (split nl s)) as [b Hb].
    rewrite join_split in Hb.
    destruct (trim_infix (join [nl] (sliceButLast (split nl s)))) as (a' & b' & H).
    exists a', (b' ++ b). rewrite Hb at 1. rewrite H at 1.
    rewrite <- !app_assoc. reflexivity.
  - exists [], []. rewrite app_nil_r. reflexivity.
Qed.

End MoreStringFacts.

(** X1: the preprocessed content is a contiguous part of the content: text
    is only removed, from the two ends, and what is kept has no white space
    at either end. *)
Theorem preprocessContent_keeps_a_contiguous_part (c : jsstring) :
  (exists a b, c = a ++ preprocessContent c ++ b) /\
  includes (preprocessContent c) c = true /\
  List.length (preprocessContent c) <= List.length c /\
  trim (preprocessContent c) = preprocessContent c.
Proof.
  assert (exists a b, c = a ++ preprocessContent c ++ b) as Hin.
  { rewrite preprocessContent_unfold.
    destruct (trim_infix c) as (a1 & b1 & H1).
    destruct (stripLeadingFence_infix (trim c)) as (a2 & b2 & H2).
    destruct (stripTrailingFence_infix (stripLeadingFence (trim c)))
      as (a3 & b3 & H3).
    exists (a1 ++ a2 ++ a3), (b3 ++ b2 ++ b1).
    rewrite H1 at 1. rewrite H2 at 1. rewrite H3 at 1.
    rewrite <- !app_assoc. reflexivity. }
  split; [exact Hin|]. destruct Hin as (a & b & H).
  split; [apply (includes_infix _ a b); exact H|].
  split; [|apply preprocessContent_trimmed].
  rewrite H at 2. rewrite !length_app. lia.
Qed.

(** X2: the contents that preprocessing leaves unchanged are exactly those
    that are trimmed and have no fence at either end. *)
Theorem preprocessContent_fixed_points (c : jsstring) :
  preprocessContent c = c <->
  trim c = c /\ startsWith fence c = false /\ endsWith fence c = false.
Proof.
  split.
  - intros H.
    split; [rewrite <- H; apply preprocessContent_trimmed|].
    pose proof (preprocessContent_strips_remaining_fence c) as Hs.
    rewrite !H in Hs.
    destruct (startsWith fence c), (endsWith fence c);
      try (exfalso; apply Hs; [tauto|reflexivity]).
    split; reflexivity.
  - intros (Ht & Hs & He). rewrite preprocessContent_unfold, Ht.
    unfold stripLeadingFence. rewrite Hs.
    unfold stripTrailingFence. rewrite He. reflexivity.
Qed.

(** X3: a content wrapped in one fenced block, whatever follows the opening
    fence on its line, is preprocessed to its trimmed body. *)
Theorem preprocessContent_unwraps_fenced_block (lang body : jsstring) :
  lacks nl lang = true ->
  preprocessContent (fence ++ lang ++ nl :: body ++ nl :: fence) = trim body.
Proof.
  intros Hl. rewrite preprocessContent_unfold.
  set (c := fence ++ lang ++ nl :: body ++ nl :: fence).
  assert (trim c = c) as Hc.
  { unfold trim. replace (trimStart c) with c by reflexivity.
    subst c.
    replace (fence ++ lang ++ nl :: body ++ nl :: fence)
      with ((fence ++ lang ++ nl :: body ++ [nl]) ++ fence)
      by (rewrite <- !app_assoc; simpl; rewrite <- !app_assoc; reflexivity).
    rewrite trimEnd_keep; [reflexivity|vm_compute; discriminate]. }
  rewrite Hc. unfold stripLeadingFence.
  replace (startsWith fence c) with true
    by (symmetry; apply startsWith_app).
  assert (join [nl] (sliceFrom1 (split nl c)) = body ++ nl :: fence) as Hj.
  { subst c. rewrite app_assoc, split_app_sep.
    rewrite (split_lacks nl (fence ++ lang))
      by (rewrite lacks_app, Hl; reflexivity).
    simpl. apply join_split. }
  rewrite Hj. unfold trim at 1. rewrite trimStart_app.
  unfold stripTrailingFence.
  destruct (trimStart body) as [|y0 y] eqn:Ey.
  - replace (trimEnd (trimStart (nl :: fence))) with fence by reflexivity.
    unfold trim. rewrite Ey. vm_compute. reflexivity.
  - replace ((y0 :: y) ++ nl :: fence) with (((y0 :: y) ++ [nl]) ++ fence)
      by (rewrite <- app_assoc; reflexivity).
    rewrite trimEnd_keep by (vm_compute; discriminate).
    replace (trimEnd fence) with fence by reflexivity.
    rewrite endsWith_app.
    rewrite <- app_assoc. simpl app at 2.
    rewrite split_app_sep.
    replace (split nl fence) with [fence] by reflexivity.
    unfold sliceButLast. rewrite removelast_last, join_split.
    unfold trim. rewrite <- Ey.
    rewrite (trimStart_fixed _ (trimStart_startTrimmed body)). reflexivity.
Qed.

Lemma preprocessContent_unwraps_fenced_block_witness :
  lacks nl (js "ts") = true /\
  preprocessContent (fence ++ js "ts" ++ nl :: js "  let x = 1 " ++ nl :: fence)
  = trim (js "  let x = 1 ").
Proof.
  split; [reflexivity|].
  apply (preprocessContent_unwraps_fenced_block (js "ts") (js "  let x = 1 ")).
  reflexivity.
Defined.

(** ** More on the file-write engine *)

Module WriteFileMore.

Import WriteFileTool WriteSpec WriteMore.

Ltac exec := WriteFileFacts.exec.

Ltac split_faults env :=
  repeat (match goal with
          | |- context [faults env ?n] => destruct (faults env n) eqn:?
          end; exec).

(** X4: whatever its input and whatever its collaborators do, [execute]
    returns a result, and on return [isProcessingFinalContent] and the diff
    view's [isEditing] are off, whatever they were before. *)
Theorem write_always_returns_and_resets_flags
    (env : Env) (path content : option jsstring) (w : World) :
  exists r w',
    execute env path content w = (Returned r, w') /\
    isProcessingFinalContent w' = false /\
    isEditing w' = false.
Proof.
  destruct w as [k tr f1 f2]. exec.
  destruct (isEmpty _); [eexists; eexists; repeat split|].
  destruct (isEmpty _); [eexists; eexists; repeat split|].
  destruct (isDiffViewOpen env); exec; split_faults env;
    try (eexists; eexists; repeat split; fail);
    destruct (response (askAnswer env)); exec; split_faults env;
    try (eexists; eexists; repeat split; fail);
    destruct (userEdits env) as [[|c edits]|]; cbv [isEmpty]; exec;
    split_faults env; eexists; eexists; repeat split.
Qed.

(** X5: without a path or without a content, or with an empty one, nothing
    is asked of any collaborator: the error is logged and returned as
    text. *)
Theorem write_without_path_or_content
    (env : Env) (path content : option jsstring) :
  isEmpty (orElse path []) || isEmpty (orElse content []) = true ->
  exists w,
    run env path content
      = (Returned (FormatToolResponse
                     (js "Write to File Error With:"
                      ++ js "Missing required parameters 'path' or 'content'")
                     None), w) /\
    clock w = 0 /\
    calls (trace w)
      = [EConsole "Error in processFileWrite:"
           (Some (ErrorOf (js "Missing required parameters 'path' or 'content'")))].
Proof.
  intros H.
  destruct (isEmpty (orElse path [])) eqn:E1;
    destruct (isEmpty (orElse content [])) eqn:E2; try discriminate H;
    unfold orElse in E1, E2; exec; rewrite ?E1, ?E2;
    eexists; repeat split.
Qed.

Lemma write_without_path_or_content_witness :
  exists w,
    run (sampleEnv {| response := yesButtonTapped; text := None; images := None |} None)
        (Some (js "a.txt")) (Some [])
      = (Returned (FormatToolResponse
                     (js "Write to File Error With:"
                      ++ js "Missing required parameters 'path' or 'content'")
                     None), w) /\
    clock w = 0 /\
    calls (trace w)
      = [EConsole "Error in processFileWrite:"
           (Some (ErrorOf (js "Missing required parameters 'path' or 'content'")))].
Proof. apply write_without_path_or_content. reflexivity. Defined.

Ltac failed_leaf :=
  let H := fresh "H" in
  intros H; simpl in H;
  repeat (destruct H as [H|H]; [try discriminate H|]);
  try contradiction;
  try (injection H as <- <-;
       split; [reflexivity|];
       match goal with
       | |- exists b, ?L = _ /\ _ =>
           exists (removelast (removelast L));
           split; [reflexivity|simpl; intuition (subst; reflexivity)]
       end).

(** X6: the first collaborator call that fails ends the run: nothing is
    called after it, its exception is logged and the result is the error
    text built from it. *)
Theorem write_failure_is_caught_and_reported
    (env : Env) (path content : option jsstring) (eff : Effect) (e : Exn) :
  In (eff, Some e) (trace (snd (run env path content))) ->
  fst (run env path content)
    = Returned (FormatToolResponse
                  (js "Write to File Error With:" ++ errorTextOf env e) None) /\
  exists before,
    trace (snd (run env path content))
      = before ++ [(eff, Some e);
                   (EConsole "Error in processFileWrite:" (Some e), None)] /\
    forall en, In en before -> snd en = None.
Proof.
  exec.
  destruct (isEmpty _); [failed_leaf|].
  destruct (isEmpty _); [failed_leaf|].
  destruct (isDiffViewOpen env); exec; split_faults env;
    try (failed_leaf; fail);
    destruct (response (askAnswer env)); exec; split_faults env;
    try (failed_leaf; fail);
    destruct (userEdits env) as [[|c edits]|]; cbv [isEmpty]; exec;
    split_faults env; failed_leaf.
Qed.

Lemma write_failure_is_caught_and_reported_witness :
  let env :=
    {| faults := fun k => if Nat.eqb k 4 then Some (ErrorOf (js "disk full")) else None;
       stringOf := fun _ => js "error";
       toPosix := fun p => p;
       getReadablePath := fun p => p;
       ts := 1%N;
       askAnswer := {| response := yesButtonTapped; text := None; images := None |};
       isDiffViewOpen := false;
       fileExistsAtPath := false;
       userEdits := None |} in
  fst (run env (Some (js "a.txt")) (Some (js "hello")))
    = Returned (FormatToolResponse
                  (js "Write to File Error With:" ++ js "disk full") None).
Proof.
  intros env.
  apply (write_failure_is_caught_and_reported env (Some (js "a.txt"))
           (Some (js "hello")) EDiffSave (ErrorOf (js "disk full"))).
  vm_compute. tauto.
Defined.

Ltac gate_leaf :=
  simpl; split; intros ?; repeat split;
  try discriminate; try reflexivity;
  try (intuition (discriminate || congruence)); try tauto.

(** X7: the diff session is saved only after the prompt was answered
    [yesButtonTapped] and reverted only after it was answered otherwise,
    whatever the collaborators do; a run never does both. *)
Theorem write_saves_only_after_acceptance
    (env : Env) (path content : jsstring) :
  (In EDiffSave (calls (trace (snd (run env (Some path) (Some content))))) ->
   response (askAnswer env) = yesButtonTapped /\
   In (prompt env path content)
      (trace (snd (run env (Some path) (Some content)))) /\
   ~ In EDiffRevert (calls (trace (snd (run env (Some path) (Some content)))))) /\
  (In EDiffRevert (calls (trace (snd (run env (Some path) (Some content))))) ->
   response (askAnswer env) <> yesButtonTapped /\
   In (prompt env path content)
      (trace (snd (run env (Some path) (Some content)))) /\
   ~ In EDiffSave (calls (trace (snd (run env (Some path) (Some content)))))).
Proof.
  unfold prompt. exec.
  destruct (isEmpty path); [gate_leaf|].
  destruct (isEmpty content); [gate_leaf|].
  destruct (isDiffViewOpen env); exec; split_faults env;
    try (gate_leaf; fail);
    destruct (response (askAnswer env)); exec; split_faults env;
    try (gate_leaf; fail);
    destruct (userEdits env) as [[|c edits]|]; cbv [isEmpty]; exec;
    split_faults env; gate_leaf.
Qed.

End WriteFileMore.

(** ** Partial updates of a file write *)

Module PartialUpdateFacts.

Import WriteFileTool WriteFilePartial WriteMore.

Ltac exec :=
  cbv [handlePartialUpdate processingFinalContent abortToolExecution msg
       bind ret throw tryCatch call fire emit record tick
       clock trace isProcessingFinalContent isEditing fst snd negb].

Ltac split_faults env :=
  repeat (match goal with
          | |- context [faults env ?n] => destruct (faults env n) eqn:?
          end; exec).

Ltac due_leaf :=
  let H := fresh "H" in
  let G := fresh "G" in
  first [ exists []; split; [rewrite app_nil_r; reflexivity|]
        | eexists; split; [rewrite <- ?app_assoc; reflexivity|] ];
  intros ? ? H G; simpl in H;
  repeat (destruct H as [H|H];
          [try (injection H as <- <-); try discriminate G|]);
  try contradiction; repeat split; auto.

(** X8: a partial update touches the diff view only when the tool is not
    processing the final content, the write animation is not skipped and at
    least [UPDATE_INTERVAL] milliseconds have passed since the last accepted
    push; what it pushes is the partial content as given, marked not
    final. *)
Theorem partial_update_touches_diff_view_only_when_due
    (env : Env) (skip : bool) (now last : Z) (relPath content : jsstring)
    (w : World) :
  exists d,
    trace (snd (handlePartialUpdate env skip now last relPath content w))
      = trace w ++ d /\
    forall eff out,
      In (eff, out) d -> isDiffCall eff = true ->
      (eff = EDiffOpen relPath \/ eff = EDiffUpdate content false) /\
      isProcessingFinalContent w = false /\
      skip = false /\
      (UPDATE_INTERVAL <= now - last)%Z.
Proof.
  destruct w as [k tr f1 f2]. exec.
  destruct f1; [due_leaf|]. destruct skip; [due_leaf|].
  destruct (Z.ltb_spec (now - last) UPDATE_INTERVAL); [due_leaf|].
  destruct (isDiffViewOpen env); exec; split_faults env; due_leaf.
Qed.

Ltac clock_leaf :=
  first [ exists []; split; [rewrite app_nil_r; reflexivity|]
        | eexists; split; [rewrite <- ?app_assoc; reflexivity|] ];
  split;
  [ first [ left; split; [simpl; tauto|reflexivity]
          | right; split;
            [intros ? ? ?; simpl; intuition discriminate|reflexivity]
          | reflexivity ]
  | let H := fresh "H" in
    intros ? ? H; simpl in H;
    repeat (destruct H as [H|H]; [try discriminate H|]);
    try contradiction;
    try (injection H as <- <-; split; reflexivity) ].

(** X9: [lastUpdateTime] moves to the current time exactly when the push
    succeeded and otherwise keeps its value; a diff view that fails to open
    is logged and the call returns without pushing; the only exception that
    leaves the call is that of the push itself. *)
Theorem partial_update_moves_time_only_on_success
    (env : Env) (skip : bool) (now last : Z) (relPath content : jsstring)
    (w : World) :
  exists d,
    trace (snd (handlePartialUpdate env skip now last relPath content w))
      = trace w ++ d /\
    match fst (handlePartialUpdate env skip now last relPath content w) with
    | Returned last' =>
        (In (EDiffUpdate content false, None) d /\ last' = now)
        \/ ((forall x b o, ~ In (EDiffUpdate x b, o) d) /\ last' = last)
    | Threw e => lastOf d = Some (EDiffUpdate content false, Some e)
    end /\
    forall p e,
      In (EDiffOpen p, Some e) d ->
      fst (handlePartialUpdate env skip now last relPath content w)
        = Returned last /\
      lastOf d = Some (EConsole "Error opening diff view: " (Some e), None).
Proof.
  destruct w as [k tr f1 f2]. exec.
  destruct f1; [clock_leaf|]. destruct skip; [clock_leaf|].
  destruct (now - last <? UPDATE_INTERVAL)%Z; [clock_leaf|].
  destruct (isDiffViewOpen env); exec; split_faults env; clock_leaf.
Qed.



Lemma execute_leaves_processing_off
    (env : Env) (path content : option jsstring) (w : World) :
  isProcessingFinalContent (snd (execute env path content w)) = false.
Proof.
  destruct w as [k tr f1 f2]. WriteFileFacts.exec.
  destruct (isEmpty _); [reflexivity|].
  destruct (isEmpty _); [reflexivity|].
  destruct (isDiffViewOpen env); WriteFileFacts.exec;
    WriteFileMore.split_faults env; try reflexivity;
    destruct (response (askAnswer env)); WriteFileFacts.exec;
    WriteFileMore.split_faults env; try reflexivity;
    destruct (userEdits env) as [[|c edits]|]; cbv [isEmpty];
    WriteFileFacts.exec; WriteFileMore.split_faults env; reflexivity.
Qed.

Lemma partial_update_not_skipped_when_idle
    (env : Env) (skip : bool) (now last : Z) (relPath content : jsstring)
    (w : World) :
  isProcessingFinalContent w = false ->
  exists d,
    trace (snd (handlePartialUpdate env skip now last relPath content w))
      = trace w ++ d /\
    ~ In skipWarning d.
Proof.
  destruct w as [k tr f1 f2]. simpl. intros ->. unfold skipWarning. exec.
  destruct skip;
    [|destruct (now - last <? UPDATE_INTERVAL)%Z;
      [|destruct (isDiffViewOpen env); exec; split_faults env]];
    (first [ exists []; split; [rewrite app_nil_r; reflexivity|]
           | eexists; split; [rewrite <- ?app_assoc; reflexivity|] ]);
    simpl; intuition discriminate.
Qed.

(** X11: however a file write ends (saved, rejected, failed or refused for
    a missing parameter), the partial update that follows it is not dropped
    as arriving during the processing of the final content. *)
Theorem partial_update_is_handled_after_any_write
    (env env' : Env) (path content : option jsstring) (w : World)
    (skip : bool) (now last : Z) (relPath partial : jsstring) :
  exists d,
    trace (snd (handlePartialUpdate env' skip now last relPath partial
                  (snd (execute env path content w))))
      = trace (snd (execute env path content w)) ++ d /\
    ~ In skipWarning d.
Proof.
  apply partial_update_not_skipped_when_idle.
  apply execute_leaves_processing_off.
Qed.

End PartialUpdateFacts.

(** ** Image blocks of a tool response *)

Module ImageBlockFacts.

Import ImageBlocks.

Lemma imageBlockOf_dataUrlOf (mime payload : jsstring) :
  plainMime mime = true ->
  lacks comma payload = true ->
  imageBlockOf (dataUrlOf mime payload)
  = Some {| media_type := mime; data := Some payload |}.
Proof.
  unfold plainMime. intros Hm Hp.
  apply andb_prop in Hm. destruct Hm as [Hm Hsemi].
  apply andb_prop in Hm. destruct Hm as [Hcomma Hcolon].
  unfold imageBlockOf, dataUrlOf.
  replace (js "data:" ++ mime ++ js ";base64," ++ payload)
    with ((js "data:" ++ mime ++ js ";base64") ++ comma :: payload)
    by (rewrite <- !app_assoc; reflexivity).
  rewrite split_app_sep.
  rewrite (split_lacks comma (js "data:" ++ mime ++ js ";base64"))
    by (rewrite !lacks_app, Hcomma; reflexivity).
  rewrite (split_lacks comma payload Hp). cbn [app hd nth_error].
  replace (js "data:" ++ mime ++ js ";base64")
    with (js "data" ++ colon :: (mime ++ js ";base64")) by reflexivity.
  rewrite split_app_sep.
  rewrite (split_lacks colon (mime ++ js ";base64"))
    by (rewrite lacks_app, Hcolon; reflexivity).
  replace (split colon (js "data")) with [js "data"] by reflexivity.
  cbn [app hd nth_error].
  replace (mime ++ js ";base64") with (mime ++ semicolon :: js "base64")
    by reflexivity.
  rewrite split_app_sep, (split_lacks semicolon mime Hsemi). reflexivity.
Qed.

(** X12: a data URL [data:<mime>;base64,<payload>] is taken apart into its
    mime type and its payload, and a list of such URLs becomes the text
    block followed by one image block per URL, in the order given. *)
Theorem data_urls_become_image_blocks
    (text : jsstring) (images : list (jsstring * jsstring)) :
  Forall (fun i => plainMime (fst i) = true /\ lacks comma (snd i) = true)
    images ->
  formatImagesIntoBlocks
    (Some (List.map (fun i => dataUrlOf (fst i) (snd i)) images))
  = Some (List.map (fun i => {| media_type := fst i; data := Some (snd i) |})
            images) /\
  formatIntoToolResponse text
    (Some (List.map (fun i => dataUrlOf (fst i) (snd i)) images))
  = Some match images with
         | [] => TextOnly text
         | _ => TextAndImages text
                  (List.map (fun i => {| media_type := fst i;
                                         data := Some (snd i) |}) images)
         end.
Proof.
  intros H.
  assert (mapBlocks (List.map (fun i => dataUrlOf (fst i) (snd i)) images)
          = Some (List.map (fun i => {| media_type := fst i;
                                        data := Some (snd i) |}) images))
    as Hmap.
  { induction H as [|[mime payload] l [Hm Hp] _ IH]; [reflexivity|].
    simpl. rewrite (imageBlockOf_dataUrlOf mime payload Hm Hp), IH.
    reflexivity. }
  split; [exact Hmap|].
  unfold formatIntoToolResponse, formatImagesIntoBlocks. rewrite Hmap.
  destruct images; reflexivity.
Qed.

Lemma data_urls_become_image_blocks_witness :
  formatIntoToolResponse (js "done")
    (Some [js "data:image/png;base64,iVBORw0KGgo="])
  = Some (TextAndImages (js "done")
            [{| media_type := js "image/png";
                data := Some (js "iVBORw0KGgo=") |}]).
Proof.
  apply (data_urls_become_image_blocks (js "done")
           [(js "image/png", js "iVBORw0KGgo=")]).
  repeat constructor.
Defined.

(** X13: without images, or with an empty list of images, the response is
    the text alone; an image whose text has no colon makes the whole call
    throw, wherever it stands in the list. *)
Theorem images_without_colon_throw
    (text : jsstring) (images : list jsstring) (bad : jsstring) :
  formatIntoToolResponse text None = Some (TextOnly text) /\
  formatIntoToolResponse text (Some []) = Some (TextOnly text) /\
  (lacks colon bad = true -> In bad images ->
   formatImagesIntoBlocks (Some images) = None /\
   formatIntoToolResponse text (Some images) = None).
Proof.
  split; [reflexivity|]. split; [reflexivity|].
  intros Hb Hin.
  assert (imageBlockOf bad = None) as Hbad.
  { unfold imageBlockOf.
    assert (lacks colon (hd [] (split comma bad)) = true) as Hrest.
    { clear Hin. revert Hb. generalize bad as s.
      induction s as [|c s IH]; simpl; [reflexivity|].
      intros H. apply andb_prop in H. destruct H as [Hc Hs].
      specialize (IH Hs). pose proof (split_not_nil comma s) as Hn.
      destruct (c =? comma)%N; [reflexivity|].
      destruct (split comma s) as [|l ls]; [congruence|].
      simpl in *. rewrite Hc, IH. reflexivity. }
    rewrite (split_lacks colon _ Hrest). reflexivity. }
  assert (mapBlocks images = None) as Hmap.
  { induction images as [|i images IH]; [contradiction|].
    simpl. destruct Hin as [->|Hin].
    - rewrite Hbad. reflexivity.
    - destruct (imageBlockOf i); [rewrite (IH Hin)|]; reflexivity. }
  split; [exact Hmap|].
  unfold formatIntoToolResponse, formatImagesIntoBlocks. rewrite Hmap.
  destruct images; [contradiction|reflexivity].
Qed.

Lemma images_without_colon_throw_witness :
  formatImagesIntoBlocks
    (Some [js "data:image/png;base64,AAAA"; js "iVBORw0KGgo="]) = None /\
  formatIntoToolResponse (js "done")
    (Some [js "data:image/png;base64,AAAA"; js "iVBORw0KGgo="]) = None.
Proof.
  apply (images_without_colon_throw (js "done")
           [js "data:image/png;base64,AAAA"; js "iVBORw0KGgo="]
           (js "iVBORw0KGgo="));
    [reflexivity|simpl; tauto].
Defined.

End ImageBlockFacts.

(** ** More on the command engine *)

Module CommandMore.

Import ExecuteCommandTool CommandSpec CommandStreaming CommandMoreSpec.

Ltac exec := CommandFacts.exec.

Ltac split_faults env :=
  repeat (match goal with
          | |- context [faults env ?n] => destruct (faults env n) eqn:?
          end; exec).

Lemma trim_all_white_space (c : jsstring) :
  forallb isWhiteSpace c = true <-> trim c = [].
Proof.
  unfold trim. split.
  - intros H. replace (trimStart c) with (@nil jschar); [reflexivity|].
    induction c as [|x c IH]; [reflexivity|].
    simpl in *. apply andb_prop in H. destruct H as [-> H]. auto.
  - intros H.
    assert (trimStart c = []) as Hs.
    { pose proof (trimStart_startTrimmed c) as Ht.
      destruct (trimStart c) as [|x t]; [reflexivity|].
      simpl in Ht. simpl in H. rewrite Ht in H.
      destruct (trimEnd t); discriminate. }
    clear H. induction c as [|x c IH]; [reflexivity|].
    simpl in *. destruct (isWhiteSpace x); [auto|discriminate].
Qed.

(** X14: a command made of white space only is refused like a missing one:
    the only call is the error notification, no prompt is shown and no
    process is spawned; the validation text is returned, unless the
    notification itself throws.  A command with any other character is
    never refused this way. *)
Theorem white_space_command_is_refused (env : Env) (c : jsstring) :
  (forallb isWhiteSpace c = true ->
   calls (trace (snd (run env (Some c)))) = [missingCommand] /\
   fst (run env (Some c))
     = match faults env 0 with
       | None => Returned (RawText (js "Error: Missing or empty command parameter. Please provide a valid command."))
       | Some e => Threw e
       end) /\
  (forallb isWhiteSpace c = false ->
   hd_error (calls (trace (snd (run env (Some c))))) <> Some missingCommand).
Proof.
  split.
  - intros H. apply trim_all_white_space in H. unfold missingCommand.
    exec. rewrite H. cbv [isEmpty]. exec.
    destruct (faults env 0); split; reflexivity.
  - intros H.
    assert (isEmpty (trim c) = false) as Hv.
    { destruct (trim c) eqn:E; [|reflexivity].
      apply trim_all_white_space in E. congruence. }
    unfold missingCommand. exec. rewrite Hv. exec.
    destruct (terminalManagerIsAdvanced env); exec; [|simpl; discriminate].
    destruct (faults env 0); exec; [simpl; discriminate|].
    destruct (response (askAnswer env)); exec.
    + destruct (faults env 2); exec; [simpl; discriminate|].
      destruct (faults env 3); exec; [simpl; discriminate|].
      destruct (faults env 4); exec; [simpl; discriminate|].
      destruct (runCommandAnswer env) as [tl|]; [|simpl; discriminate].
      match goal with |- context [tryRaceAndFinalize env c tl ?w0] =>
        destruct (CommandFacts.tryRaceAndFinalize_spec env c tl w0)
          as (st & st' & d & l1 & l2 & k & f & w' & _ & _ & _ & _ & _ & _
              & _ & _ & Hrun & Htr)
      end.
      rewrite Hrun. cbv [trace] in Htr. exec. rewrite Htr.
      simpl; discriminate.
    + simpl; discriminate.
    + destruct (alwaysAllowWriteOnly env); exec; try (simpl; discriminate);
        destruct (faults env 2); exec; try (simpl; discriminate);
        destruct (faults env 3); simpl; discriminate.
Qed.

Lemma white_space_command_is_refused_witness :
  calls (trace (snd (run (sampleEnv accept None false) (Some (js "
 ")))))
  = [missingCommand].
Proof.
  apply (proj1 (white_space_command_is_refused (sampleEnv accept None false)
                  (js "
 "))).
  reflexivity.
Defined.

(** X15: whatever the collaborators do, the terminal manager is touched
    only for a command that is not blank, with an [AdvancedTerminalManager],
    after the prompt was answered [yesButtonTapped]. *)
Theorem spawn_only_after_acceptance (env : Env) (command : option jsstring) :
  existsb isSpawn (calls (trace (snd (run env command)))) = true ->
  response (askAnswer env) = yesButtonTapped /\
  terminalManagerIsAdvanced env = true /\
  faults env 0 = None /\
  exists c, command = Some c /\ isEmpty (trim c) = false.
Proof.
  destruct (response (askAnswer env)) eqn:Hr;
    try (intros H;
         rewrite (CommandFacts.rejected_never_spawns env command) in H;
         [discriminate|rewrite Hr; discriminate]).
  destruct command as [c|];
    [|exec; destruct (faults env 0); discriminate].
  destruct (isEmpty (trim c)) eqn:Hv;
    [exec; rewrite Hv; exec; destruct (faults env 0); discriminate|].
  destruct (terminalManagerIsAdvanced env) eqn:Ha;
    [|exec; rewrite Hv, Ha; discriminate].
  destruct (faults env 0) eqn:H0;
    [exec; rewrite Hv, Ha; exec; rewrite H0; discriminate|].
  intros _. repeat split. exists c. split; [reflexivity|exact Hv].
Qed.

Lemma spawn_only_after_acceptance_witness :
  response (askAnswer (sampleEnv accept (Some [Resumes]) false))
    = yesButtonTapped /\
  terminalManagerIsAdvanced (sampleEnv accept (Some [Resumes]) false) = true /\
  faults (sampleEnv accept (Some [Resumes]) false) 0 = None /\
  exists c, Some (js "ls") = Some c /\ isEmpty (trim c) = false.
Proof.
  apply (spawn_only_after_acceptance (sampleEnv accept (Some [Resumes]) false)
           (Some (js "ls"))).
  vm_compute. reflexivity.
Defined.

Lemma duringRace_withoutNoise (tl : list Tick) :
  duringRace (withoutNoise tl) = keepEvents (duringRace tl).
Proof.
  induction tl as [|[[l| |e|]|] tl IH]; simpl; rewrite ?IH; reflexivity.
Qed.

Lemma afterRace_withoutNoise (tl : list Tick) :
  afterRace (withoutNoise tl) = withoutNoise (afterRace tl).
Proof.
  induction tl as [|[[l| |e|]|] tl IH]; simpl; rewrite ?IH; reflexivity.
Qed.

Lemma duringGrace_withoutNoise (tl : list Tick) :
  duringGrace (withoutNoise tl) = keepEvents (duringGrace tl).
Proof.
  induction tl as [|[[l| |e|]|] tl IH]; simpl; rewrite ?IH; reflexivity.
Qed.

Lemma afterGrace_withoutNoise (tl : list Tick) :
  afterGrace (withoutNoise tl) = withoutNoise (afterGrace tl).
Proof.
  induction tl as [|[[l| |e|]|] tl IH]; simpl; rewrite ?IH; reflexivity.
Qed.

Lemma delivered_withoutNoise (tl : list Tick) :
  delivered (withoutNoise tl) = keepEvents (delivered tl).
Proof.
  unfold delivered, streamed, duringApproval, afterDelay, keepEvents.
  rewrite duringRace_withoutNoise, afterRace_withoutNoise,
    afterGrace_withoutNoise, !duringGrace_withoutNoise, !filter_app.
  reflexivity.
Qed.

Lemma bufferOf_keepEvents (evs : list ProcessEvent) :
  bufferOf (keepEvents evs) = bufferOf evs.
Proof.
  induction evs as [|[l| |e|] evs IH]; simpl; rewrite ?IH; reflexivity.
Qed.

Lemma hasCompleted_keepEvents (evs : list ProcessEvent) :
  hasCompleted (keepEvents evs) = hasCompleted evs.
Proof.
  induction evs as [|[l| |e|] evs IH]; simpl; rewrite ?IH; reflexivity.
Qed.

(** X16: the [error] and [no_shell_integration] events of the process have
    no influence on the result of an accepted command whose collaborators do
    not fail: the result is the same as for the process without them. *)
Theorem process_errors_do_not_change_the_result
    (env : Env) (command : jsstring) (tl : list Tick) :
  isEmpty (trim command) = false ->
  terminalManagerIsAdvanced env = true ->
  noFaults env ->
  response (askAnswer env) = yesButtonTapped ->
  fst (run (withProcess env tl) (Some command))
  = fst (run (withProcess env (withoutNoise tl)) (Some command)).
Proof.
  intros Hv Ha Hf Hr.
  destruct (CommandFacts.approved_run (withProcess env tl) command tl
              Hv Ha (fun k _ => Hf k) Hr eq_refl)
    as (sa1 & st1 & d1 & la1 & lb1 & k1 & f1 & w1 & _ & _ & _ & _ & _ & _
        & O1 & C1 & R1 & _).
  destruct (CommandFacts.approved_run (withProcess env (withoutNoise tl))
              command (withoutNoise tl) Hv Ha (fun k _ => Hf k) Hr eq_refl)
    as (sa2 & st2 & d2 & la2 & lb2 & k2 & f2 & w2 & _ & _ & _ & _ & _ & _
        & O2 & C2 & R2 & _).
  rewrite R1, R2. simpl fst. simpl faults. rewrite !Hf.
  rewrite delivered_withoutNoise, bufferOf_keepEvents in O2.
  rewrite delivered_withoutNoise, hasCompleted_keepEvents in C2.
  unfold success, successText, outputSection. simpl.
  rewrite O1, O2, C1, C2. reflexivity.
Qed.

Lemma process_errors_do_not_change_the_result_witness :
  let tl := [Emit (Line (js "hi")); Emit (ProcessError (js "EPIPE"));
             Emit NoShellIntegration; Emit Completed] in
  fst (run (withProcess (sampleEnv accept None false) tl) (Some (js "ls")))
  = fst (run (withProcess (sampleEnv accept None false)
                [Emit (Line (js "hi")); Emit Completed]) (Some (js "ls"))).
Proof.
  intros tl.
  apply (process_errors_do_not_change_the_result
           (sampleEnv accept None false) (js "ls") tl);
    [reflexivity | reflexivity | intros k; reflexivity | reflexivity].
Defined.

Lemma chainTo_refl (lo : jsstring) : chainTo lo lo [].
Proof. exists []. rewrite app_nil_r. reflexivity. Qed.

Lemma chainTo_lower (lo mid hi : jsstring) (l : list jsstring) :
  (exists b, mid = lo ++ b) -> chainTo mid hi l -> chainTo lo hi l.
Proof.
  intros [b ->]. destruct l as [|o rest]; simpl.
  - intros [b' ->]. exists (b ++ b'). rewrite app_assoc. reflexivity.
  - intros [[a ->] H]. split; [|exact H].
    exists (b ++ a). rewrite app_assoc. reflexivity.
Qed.

Lemma chainTo_app (lo mid hi : jsstring) (l1 l2 : list jsstring) :
  chainTo lo mid l1 -> chainTo mid hi l2 -> chainTo lo hi (l1 ++ l2).
Proof.
  revert lo. induction l1 as [|o l1 IH]; simpl; intros lo H1 H2.
  - eapply chainTo_lower; eassumption.
  - destruct H1 as [Ho H1]. split; [exact Ho|]. apply IH; assumption.
Qed.

Lemma outputsOf_app (a b : list Entry) :
  outputsOf (a ++ b) = outputsOf a ++ outputsOf b.
Proof.
  induction a as [|en a IH]; simpl; [reflexivity|].
  destruct (streamedOutput (fst en)); rewrite IH; reflexivity.
Qed.

Lemma lastOf_cons {A : Type} (x : A) (l : list A) :
  exists z, lastOf (x :: l) = Some z.
Proof.
  unfold lastOf. simpl. destruct (rev l ++ [x]) as [|z t] eqn:E.
  - apply app_eq_nil in E. destruct E as [_ E]. discriminate E.
  - exists z. reflexivity.
Qed.

Lemma outputsOf_In (tr : list Entry) (e : Effect) (f : option Exn)
    (o : jsstring) :
  In (e, f) tr -> streamedOutput e = Some o -> In o (outputsOf tr).
Proof.
  induction tr as [|en tr IH]; simpl; [tauto|].
  intros [->|Hin] Ho.
  - simpl. rewrite Ho. left. reflexivity.
  - destruct (streamedOutput (fst en)); [right|]; apply IH; assumption.
Qed.

Section Growth.

Variable env : Env.
Variable command : jsstring.

Local Abbreviation Grown := (GrownBy env command).

Lemma Grown_same (st st' : Local) (w : World) :
  output st' = output st -> Grown st st' w w.
Proof.
  intros H. exists []. rewrite app_nil_r, H.
  repeat split; [apply chainTo_refl|discriminate|constructor].
Qed.

Lemma Grown_refl (st : Local) (w : World) : Grown st st w w.
Proof. apply Grown_same. reflexivity. Qed.

Lemma Grown_trans (a b c : Local) (u v w : World) :
  Grown a b u v -> Grown b c v w -> Grown a c u w.
Proof.
  intros (d1 & T1 & C1 & N1 & L1 & K1) (d2 & T2 & C2 & N2 & L2 & K2).
  exists (d1 ++ d2).
  rewrite T2, T1, app_assoc, outputsOf_app. split; [reflexivity|].
  split; [eapply chainTo_app; eassumption|]. split; [|split].
  - intros E. apply app_eq_nil in E. destruct E as [E1 E2].
    rewrite (N2 E2). exact (N1 E1).
  - intros o. destruct (outputsOf d2) as [|y o2] eqn:E2.
    + rewrite app_nil_r, (N2 eq_refl). exact (L1 o).
    + destruct (lastOf_cons y o2) as [z Hz].
      rewrite (lastOf_app (outputsOf d1) (y :: o2) z Hz).
      intros [= <-]. exact (L2 z Hz).
  - unfold calls. rewrite map_app. apply Forall_app. split; assumption.
Qed.

Lemma Grown_console (st : Local) (w : World) (line : string) (e : option Exn) :
  Grown st st w (record (EConsole line e, None) w).
Proof.
  exists [(EConsole line e, None)].
  repeat split; [apply chainTo_refl|discriminate|repeat constructor].
Qed.

(** The [approved] broadcast carries the buffer as it is. *)
Lemma Grown_approved (st : Local) (w : World) (f : option Exn) :
  Inv st ->
  Grown st st w (tick (record (approvedBroadcast env command st, f) w)).
Proof.
  intros [_ Hexit]. exists [(approvedBroadcast env command st, f)].
  split; [reflexivity|]. simpl. split; [|split; [|split]].
  - split; [exists []; rewrite app_nil_r; reflexivity|apply chainTo_refl].
  - discriminate.
  - intros o [= <-]. reflexivity.
  - repeat constructor. do 4 eexists. split; [reflexivity|].
    rewrite Hexit. destruct (completed st); discriminate.
Qed.

(** The [error] broadcast streams no output. *)
Lemma Grown_error (st : Local) (w : World) (x : Exn) (f : option Exn) :
  Grown st st w (tick (record (errorBroadcast env command x, f) w)).
Proof.
  exists [(errorBroadcast env command x, f)].
  split; [reflexivity|]. simpl.
  repeat split; [apply chainTo_refl|discriminate|].
  repeat constructor. do 4 eexists. split; [reflexivity|discriminate].
Qed.

Lemma dispatch_grows (ev : ProcessEvent) (st st' : Local) (w w' : World) :
  Inv st ->
  dispatch env command ev st w = (Returned st', w') ->
  Grown st st' w w'.
Proof.
  intros [Harm Hexit]. destruct ev as [l| |e|]; simpl.
  - unfold onLine. destruct (isEmpty l).
    + intros [= <- <-]. apply Grown_refl.
    + simpl. unfold bind, tryCatch, call, ret, emit.
      assert (earlyExit st <> exitRejected) as Hne
        by (rewrite Hexit; destruct (completed st); discriminate).
      destruct (faults env (clock w)) as [x|]; simpl; intros [= <- <-];
        eexists; (split; [simpl; rewrite <- ?app_assoc; reflexivity|]);
        simpl; (split; [split; [eexists; reflexivity|apply chainTo_refl]|]);
        (split; [discriminate|]);
        (split; [intros o [= <-]; reflexivity|]);
        repeat constructor; do 4 eexists;
        (split; [reflexivity|]); intros [= Hx]; congruence.
  - unfold onCompleted. destruct (completedArmed st);
      intros [= <- <-]; apply Grown_same; reflexivity.
  - unfold onError, bind, emit, ret. intros [= <- <-]. apply Grown_console.
  - unfold onNoShellIntegration. destruct (noShellArmed st).
    + unfold bind, tryCatch, call, throw, emit, ret.
      destruct (faults env (clock w)); simpl; intros [= <- <-];
        eexists; (split; [simpl; rewrite <- ?app_assoc; reflexivity|]);
        (split; [apply chainTo_refl|]);
        (split; [reflexivity|]);
        (split; [discriminate|repeat constructor]).
    + intros [= <- <-]. apply Grown_refl.
Qed.

Lemma race_grows (tl : list Tick) :
  forall (st st' : Local) (rest : list Tick) (w w' : World),
    Inv st -> completed st = false ->
    race env command tl st w = (Returned (st', rest), w') ->
    Grown st st' w w'.
Proof.
  induction tl as [|t tl IH]; intros st st' rest w w' HI HC.
  - simpl. unfold bind, timedOut, emit, ret. intros [= <- _ <-].
    apply Grown_console.
  - destruct t as [ev|].
    + destruct (dispatch_spec env command ev st w HI)
        as (st1 & w1 & E1 & I1 & _ & C1 & _).
      simpl race. unfold bind at 1. rewrite E1.
      pose proof (dispatch_grows ev st st1 w w1 HI E1) as G1.
      destruct (completed st1) eqn:Ec.
      * intros [= <- _ <-]. exact G1.
      * intros E2. eapply Grown_trans; [exact G1|].
        eapply IH; eassumption.
    + simpl. unfold bind, timedOut, emit, ret. intros [= <- _ <-].
      apply Grown_console.
Qed.

Lemma flush_grows (tl : list Tick) :
  forall (st st' : Local) (rest : list Tick) (w w' : World),
    Inv st ->
    flush env command tl st w = (Returned (st', rest), w') ->
    Grown st st' w w'.
Proof.
  induction tl as [|t tl IH]; intros st st' rest w w' HI.
  - simpl. intros [= <- _ <-]. apply Grown_refl.
  - destruct t as [ev|].
    + destruct (dispatch_spec env command ev st w HI)
        as (st1 & w1 & E1 & I1 & _).
      simpl flush. unfold bind at 1. rewrite E1. intros E2.
      eapply Grown_trans; [exact (dispatch_grows ev st st1 w w1 HI E1)|].
      eapply IH; eassumption.
    + simpl. intros [= <- _ <-]. apply Grown_refl.
Qed.

(** The [try] statement as a whole: from the empty buffer to the buffer of
    everything handled before [execute] returns. *)
Lemma tryRaceAndFinalize_grows (tl : list Tick) (w : World) :
  exists r st w',
    tryRaceAndFinalize env command tl w = (Returned r, w') /\
    Grown initialLocal st w w' /\
    output st = bufferOf (handled tl).
Proof.
  assert (Inv initialLocal) as HI by (split; reflexivity).
  destruct (race_spec env command tl initialLocal w HI eq_refl)
    as (st1 & w1 & E1 & I1 & O1 & _).
  destruct (flush_spec env command (afterRace tl) st1 w1 I1)
    as (st2 & w2 & E2 & I2 & O2 & _).
  destruct (flush_spec env command (afterDelay tl) st2
              (tick (record (approvedBroadcast env command st2,
                             faults env (clock w2)) w2)) I2)
    as (st3 & w3 & E3 & I3 & O3 & _).
  pose proof (race_grows tl _ _ _ _ _ HI eq_refl E1) as G1.
  pose proof (flush_grows _ _ _ _ _ _ I1 E2) as G2.
  pose proof (Grown_approved st2 w2 (faults env (clock w2)) I2) as Ga.
  pose proof (flush_grows _ _ _ _ _ _ I2 E3) as G3.
  pose proof (Grown_trans _ _ _ _ _ _
                (Grown_trans _ _ _ _ _ _
                   (Grown_trans _ _ _ _ _ _ G1 G2) Ga) G3) as G.
  assert (forall st4, output st4
                      = output st3
                        ++ bufferOf (duringGrace (afterGrace (afterDelay tl))) ->
          output st4 = bufferOf (handled tl)) as Ho.
  { intros st4 ->. rewrite O3, O2, O1.
    unfold handled, late, streamed, duringApproval, duringReturn.
    rewrite !bufferOf_app, <- !app_assoc. reflexivity. }
  unfold tryRaceAndFinalize, raceAndFinalize.
  unfold bind at 1. unfold bind at 1.
  rewrite E1. unfold bind at 1. simpl fst. simpl snd. rewrite E2.
  unfold bind at 1. simpl fst. simpl snd.
  rewrite CommandFacts.awaiting_unfold.
  unfold approvedBroadcast, afterDelay in E3. rewrite E3.
  cbn [fst snd].
  cbv [userFeedback isEmpty orElse negb orb List.length Nat.eqb].
  destruct (faults env (clock w2)) as [x|].
  - destruct (flush_spec env command (afterGrace (afterDelay tl)) st3
                (tick (record (errorBroadcast env command x,
                               faults env (clock w3)) w3)) I3)
      as (st4 & w4 & E4 & _ & O4 & _).
    pose proof (flush_grows _ _ _ _ _ _ I3 E4) as G4.
    pose proof (Grown_error st3 w3 x (faults env (clock w3))) as Ge.
    eexists. exists st4, w4.
    cbn [fst snd]. unfold ret at 1.
    unfold bind at 1, fire at 1, call at 1. cbn [fst snd].
    unfold bind at 1. unfold errorBroadcast, afterDelay in E4. rewrite E4.
    unfold ret. split; [reflexivity|]. split; [|exact (Ho st4 O4)].
    exact (Grown_trans _ _ _ _ _ _ (Grown_trans _ _ _ _ _ _ G Ge) G4).
  - destruct (flush_spec env command (afterGrace (afterDelay tl)) st3 w3 I3)
      as (st4 & w4 & E4 & _ & O4 & _).
    pose proof (flush_grows _ _ _ _ _ _ I3 E4) as G4.
    unfold finish. cbn [fst snd]. unfold afterDelay in E4.
    destruct (returnEmptyStringOnSuccess env);
      eexists; exists st4, w4;
      unfold bind at 1; rewrite E4; cbv [bind ret fst snd];
      (split; [reflexivity|]); (split; [|exact (Ho st4 O4)]);
      exact (Grown_trans _ _ _ _ _ _ G G4).
Qed.

End Growth.

(** X17: in an accepted run that obtains its process handle, whatever
    fails afterwards and whenever the lines arrive, the outputs streamed to
    the channel only grow: each [loading] or [approved] broadcast carries
    an output that extends the one before it, and the last of them carries
    the buffer of all the lines handled before [execute] returns.  The
    [approved] broadcast carries the buffer of the lines handled during the
    race and the grace delay; lines handled after it are streamed by later
    [loading] broadcasts.  Every prompt and broadcast of the run carries
    the command, [ts] and [isSubMsg] of the invocation, and no [earlyExit]
    is ever [rejected]. *)
Theorem streamed_outputs_only_grow
    (env : Env) (command : jsstring) (tl : list Tick) :
  isEmpty (trim command) = false ->
  terminalManagerIsAdvanced env = true ->
  spawnSucceeds env ->
  response (askAnswer env) = yesButtonTapped ->
  runCommandAnswer env = Some tl ->
  chainTo [] (bufferOf (handled tl))
    (outputsOf (trace (snd (run env (Some command))))) /\
  lastOf (outputsOf (trace (snd (run env (Some command)))))
    = Some (bufferOf (handled tl)) /\
  (exists st f,
     In (approvedBroadcast env command st, f)
        (trace (snd (run env (Some command)))) /\
     output st = bufferOf (streamed tl)) /\
  Forall (keyed env command) (calls (trace (snd (run env (Some command))))).
Proof.
  intros Hv Ha Hs Hr Hp.
  destruct (CommandFacts.approved_run env command tl Hv Ha Hs Hr Hp)
    as (sa & sb & d0 & l1 & l2 & k & f & w0 & _ & _ & _ & Hoa & _ & _ & _
        & _ & Hrun0 & Htr0).
  assert (exists st w,
            snd (run env (Some command)) = w /\
            GrownBy env command initialLocal st
              {| clock := 5; trace := spawnTrace env command;
                 isProcessingFinalContent := false; isEditing := false |} w /\
            output st = bufferOf (handled tl)) as (st & w & Hw & G & Ho).
  { assert (faults env 0 = None) as H0 by (apply Hs; lia).
    assert (faults env 1 = None) as H1 by (apply Hs; lia).
    assert (faults env 2 = None) as H2 by (apply Hs; lia).
    assert (faults env 3 = None) as H3 by (apply Hs; lia).
    assert (faults env 4 = None) as H4 by (apply Hs; lia).
    exec. rewrite Hv, Ha. exec. rewrite H0. exec. rewrite Hr. exec.
    rewrite H1, H2. exec. rewrite H3. exec. rewrite H4. exec. rewrite Hp.
    match goal with |- context [tryRaceAndFinalize env command tl ?w5] =>
      destruct (tryRaceAndFinalize_grows env command tl w5)
        as (r & st & w & Hrun & G & Ho)
    end.
    exists st, w. rewrite Hrun. split; [reflexivity|].
    split; [exact G|exact Ho]. }
  assert (In (approvedBroadcast env command sa, faults env k)
             (trace (snd (run env (Some command))))) as Hin.
  { rewrite Hrun0. simpl snd. rewrite Htr0, !in_app_iff.
    right. right. left. reflexivity. }
  rewrite Hw in *. destruct G as (d & T & C & N & L & K).
  simpl trace in T. rewrite T in *.
  assert (outputsOf (spawnTrace env command ++ d) = outputsOf d) as Eo
    by (rewrite outputsOf_app; reflexivity).
  assert (In (output sa) (outputsOf d)) as Hne.
  { rewrite <- Eo. eapply outputsOf_In; [exact Hin|reflexivity]. }
  rewrite Eo, Ho in *. split; [exact C|]. split; [|split].
  - destruct (outputsOf d) as [|y o2] eqn:E; [contradiction|].
    destruct (lastOf_cons y o2) as [z Hz]. rewrite Hz, <- (L z Hz).
    reflexivity.
  - exists sa, (faults env k). split; [exact Hin|exact Hoa].
  - unfold calls in *. rewrite map_app. apply Forall_app. split; [|exact K].
    repeat constructor; do 4 eexists; (split; [reflexivity|discriminate]).
Qed.

Lemma streamed_outputs_only_grow_witness :
  outputsOf (trace (snd (run (failingEnv (ErrorOf (js "boom")))
                           (Some (js "ls")))))
    = [js "hi
"; js "hi
"; js "hi
late
"] /\
  chainTo [] (bufferOf (handled [Emit (Line (js "hi")); Resumes; Resumes;
                                 Emit (Line (js "late"))]))
    (outputsOf (trace (snd (run (failingEnv (ErrorOf (js "boom")))
                              (Some (js "ls")))))) /\
  lastOf (outputsOf (trace (snd (run (failingEnv (ErrorOf (js "boom")))
                                   (Some (js "ls"))))))
    = Some (bufferOf (handled [Emit (Line (js "hi")); Resumes; Resumes;
                               Emit (Line (js "late"))])) /\
  (exists st f,
     In (approvedBroadcast (failingEnv (ErrorOf (js "boom"))) (js "ls") st, f)
        (trace (snd (run (failingEnv (ErrorOf (js "boom")))
                       (Some (js "ls"))))) /\
     output st = bufferOf (streamed [Emit (Line (js "hi")); Resumes; Resumes;
                                     Emit (Line (js "late"))])) /\
  Forall (keyed (failingEnv (ErrorOf (js "boom"))) (js "ls"))
    (calls (trace (snd (run (failingEnv (ErrorOf (js "boom")))
                          (Some (js "ls")))))).
Proof.
  split; [vm_compute; reflexivity|].
  apply (streamed_outputs_only_grow (failingEnv (ErrorOf (js "boom")))
           (js "ls")
           [Emit (Line (js "hi")); Resumes; Resumes; Emit (Line (js "late"))]);
    try reflexivity.
  intros k Hk. do 5 (destruct k as [|k]; [reflexivity|]). lia.
Defined.

End CommandMore.
